(** * Ethereum HTTP gateway: chain client adapter and HTTP front door

    A shallow embedding of [main.go]: the adapter [EthereumClient] with its
    two operations, the two request handlers registered by [main], and the
    start-up sequence of the process.

    Conventions.
    - A Go string is a sequence of bytes: [string] (a list of 8-bit
      [ascii]).  A [*big.Int] is a [Z].  A Go result pair [(v, err)] is a
      sum [V + error] ([inl v] when [err == nil]).
    - Library code the program calls (encoding/hex, go-ethereum/common,
      encoding/json, net/http, log) is transcribed from the library as far
      as the program exercises it; each such definition says so.
    - The upstream node is a [Client]: what [HeaderByNumber] and
      [BalanceAt] answer.  Every upstream call is recorded in a log, which
      is the state threaded by the monad [M]. *)

From Stdlib Require Import ZArith Ascii String.
From Stdlib Require Import DecimalString DecimalPos DecimalZ.
From stdpp Require Import base option list strings gmap relations.

Local Open Scope Z_scope.

(** ** encoding/hex *)

Module hex.

(** [fromHexChar]: the value of one hexadecimal digit, [None] for any
    other byte. *)
Definition fromHexChar (c : ascii) : option Z :=
  let n := Z.of_N (N_of_ascii c) in
  if (48 <=? n) && (n <=? 57) then Some (n - 48)
  else if (97 <=? n) && (n <=? 102) then Some (n - 97 + 10)
  else if (65 <=? n) && (n <=? 70) then Some (n - 65 + 10)
  else None.

Inductive error : Type :=
| InvalidByteError (c : ascii)
| ErrLength.

(** [Decode]: two digits per byte, left to right.  At the first byte that
    is no digit it stops; what was decoded before is kept.  A trailing
    single digit is a length error. *)
Fixpoint Decode (src : string) : list Z * option error :=
  match src with
  | String p (String q rest) =>
      match fromHexChar p with
      | None => ([], Some (InvalidByteError p))
      | Some a =>
          match fromHexChar q with
          | None => ([], Some (InvalidByteError q))
          | Some b =>
              let '(dst, err) := Decode rest in
              (Z.lor (Z.shiftl a 4) b :: dst, err)
          end
      end
  | String p EmptyString =>
      match fromHexChar p with
      | None => ([], Some (InvalidByteError p))
      | Some _ => ([], Some ErrLength)
      end
  | EmptyString => ([], None)
  end.

(** [DecodeString] returns the decoded prefix [src[:n]] together with the
    error. *)
Definition DecodeString (s : string) : list Z * option error := Decode s.

End hex.

(** ** go-ethereum/common *)

Module common.

Definition AddressLength : nat := 20.

(** [Address] is Go's [[20]byte]; [SetBytes_length] shows the length. *)
Definition Address : Type := list Z.

Definition has0xPrefix (str : string) : bool :=
  match str with
  | String c0 (String c1 _) =>
      bool_decide (c0 = "0"%char) &&
      (bool_decide (c1 = "x"%char) || bool_decide (c1 = "X"%char))
  | _ => false
  end.

(** [Hex2Bytes] drops the decoder's error. *)
Definition Hex2Bytes (str : string) : list Z := fst (hex.DecodeString str).

Definition FromHex (s : string) : list Z :=
  let s := if has0xPrefix s then
             match s with String _ (String _ s') => s' | _ => s end
           else s in
  let s := if Nat.odd (String.length s) then String "0"%char s else s in
  Hex2Bytes s.

(** [SetBytes] on the zero address: a longer [b] is cropped from the
    left, a shorter one is copied right-aligned. *)
Definition SetBytes (b : list Z) : Address :=
  let b := if decide (AddressLength < length b)%nat
           then drop (length b - AddressLength)%nat b else b in
  replicate (AddressLength - length b)%nat 0 ++ b.

Definition BytesToAddress (b : list Z) : Address := SetBytes b.

Definition HexToAddress (s : string) : Address := BytesToAddress (FromHex s).

End common.

(** ** math/big *)

Module big.

(** [String] of a [big.Int]: the decimal representation, with a leading minus
    sign for negative numbers. *)
Definition String (x : Z) : string := NilZero.string_of_int (Z.to_int x).

End big.

(** ** encoding/json *)

Module json.

Definition quote : ascii := "034"%char.
Definition backslash : ascii := "092"%char.
Definition newline : ascii := "010"%char.

Definition hexdigit (n : Z) : ascii :=
  ascii_of_N (Z.to_N (if n <? 10 then 48 + n else 97 + (n - 10))).

(** One byte of a string value as the encoder writes it (HTML escaping is
    on by default): quote and backslash get a backslash, line feed,
    carriage return and tab their short form, other control bytes and
    [<], [>], [&] the form [\u00XX]; every other byte is copied. *)
Definition encodeByte (c : ascii) : string :=
  let b := Z.of_N (N_of_ascii c) in
  if bool_decide (c = quote) || bool_decide (c = backslash)
  then String backslash (String c EmptyString)
  else if b =? 10 then String backslash "n"
  else if b =? 13 then String backslash "r"
  else if b =? 9 then String backslash "t"
  else if (b <? 32) || (b =? 60) || (b =? 62) || (b =? 38)
  then String backslash
         ("u00" +:+ String (hexdigit (Z.shiftr b 4))
                      (String (hexdigit (Z.land b 15)) EmptyString))
  else String c EmptyString.

Fixpoint encodeBytes (s : string) : string :=
  match s with
  | EmptyString => EmptyString
  | String c s' => encodeByte c +:+ encodeBytes s'
  end.

Definition encodeString (s : string) : string :=
  String quote (encodeBytes s +:+ String quote EmptyString).

(** A [map[string]interface{}] whose values are strings, as the list of
    its entries in the order the encoder writes them (sorted by key). *)
Definition Object : Type := list (string * string).

Fixpoint encodeEntries (m : Object) : string :=
  match m with
  | [] => EmptyString
  | [(k, v)] => encodeString k +:+ ":" +:+ encodeString v
  | (k, v) :: m' =>
      encodeString k +:+ ":" +:+ encodeString v +:+ "," +:+ encodeEntries m'
  end.

Definition Marshal (m : Object) : string := "{" +:+ encodeEntries m +:+ "}".

(** [Encode] of an [Encoder] writes the value followed by a line feed. *)
Definition Encode (m : Object) : string :=
  Marshal m +:+ String newline EmptyString.

End json.

(** ** The upstream node: go-ethereum/ethclient *)

(** Go's [error] interface: the value of its [Error()] method. *)
Record error : Type := mkError { Error : string }.

Module types.

(** [types.Header]; the program reads the field [Number] only.  A header
    that the client returns without an error carries a number. *)
Record Header : Type := mkHeader { Number : Z }.

End types.

Module ethclient.

(** What the node answers: the header of the block selected by [number]
    ([None] is Go's [nil], the chain head) and the balance of [account]
    at that block. *)
Record Client : Type := mkClient {
  header_response : option Z -> types.Header + error;
  balance_response : common.Address -> option Z -> Z + error
}.

(** One remote call, as it appears in the log of upstream traffic. *)
Inductive Call : Type :=
| CallHeaderByNumber (number : option Z)
| CallBalanceAt (account : common.Address) (number : option Z).

End ethclient.

(** The monad of the request path: the state is the log of upstream
    calls made so far. *)
Definition M (A : Type) : Type :=
  list ethclient.Call -> A * list ethclient.Call.

#[global] Instance M_ret : MRet M := fun A (a : A) calls => (a, calls).

#[global] Instance M_bind : MBind M :=
  fun A B (f : A -> M B) (m : M A) calls =>
    let '(a, calls') := m calls in f a calls'.

(** The client's method [HeaderByNumber(ctx, number)]. *)
Definition HeaderByNumber (c : ethclient.Client) (number : option Z)
  : M (types.Header + error) :=
  fun calls =>
    (ethclient.header_response c number,
     calls ++ [ethclient.CallHeaderByNumber number]).

(** The client's method [BalanceAt(ctx, account, number)]. *)
Definition BalanceAt (c : ethclient.Client) (account : common.Address)
    (number : option Z) : M (Z + error) :=
  fun calls =>
    (ethclient.balance_response c account number,
     calls ++ [ethclient.CallBalanceAt account number]).

(** ** net/url and net/http *)

Module url.

(** [url.Values]: every key of the query string with its values. *)
Definition Values : Type := gmap string (list string).

(** [Get]: the first value of [key], the empty string when there is
    none. *)
Definition Get (v : Values) (key : string) : string :=
  match v !! key with
  | Some (x :: _) => x
  | _ => EmptyString
  end.

Record URL : Type := mkURL { Path : string; Query : Values }.

End url.

Module http.

Definition StatusOK : Z := 200.
Definition StatusBadRequest : Z := 400.
Definition StatusNotFound : Z := 404.
Definition StatusInternalServerError : Z := 500.

Record Request : Type := mkRequest { Method : string; URL : url.URL }.

(** The response under construction: the header map, whether the status
    line has been written, the status code and the body bytes. *)
Record ResponseWriter : Type := mkResponseWriter {
  Header : gmap string string;
  wroteHeader : bool;
  status : Z;
  body : string
}.

Definition newResponse : ResponseWriter :=
  {| Header := ∅; wroteHeader := false; status := 0; body := EmptyString |}.

Definition Header_Set (key value : string) (w : ResponseWriter)
  : ResponseWriter :=
  {| Header := <[key := value]> (Header w); wroteHeader := wroteHeader w;
     status := status w; body := body w |}.

(** [WriteHeader]: only the first call sets the status. *)
Definition WriteHeader (code : Z) (w : ResponseWriter) : ResponseWriter :=
  if wroteHeader w then w
  else {| Header := Header w; wroteHeader := true;
          status := code; body := body w |}.

(** [Write]: an implicit [WriteHeader(StatusOK)] when no status was
    written, then the bytes. *)
Definition Write (data : string) (w : ResponseWriter) : ResponseWriter :=
  let w := WriteHeader StatusOK w in
  {| Header := Header w; wroteHeader := wroteHeader w;
     status := status w; body := body w +:+ data |}.

(** [http.Error]: a plain-text reply; the message is written with
    [fmt.Fprintln], that is as one line. *)
Definition Error (w : ResponseWriter) (error : string) (code : Z)
  : ResponseWriter :=
  let w := Header_Set "Content-Type" "text/plain; charset=utf-8" w in
  let w := Header_Set "X-Content-Type-Options" "nosniff" w in
  let w := WriteHeader code w in
  Write (error +:+ String json.newline EmptyString) w.

Definition HandlerFunc : Type := ResponseWriter -> Request -> M ResponseWriter.

(** [ServeMux]: the registered patterns.  Both patterns of this program
    are fixed paths (no trailing slash), which match a request path only
    when equal to it. *)
Definition ServeMux : Type := gmap string HandlerFunc.

Definition NotFound : HandlerFunc :=
  fun w _ => mret (Error w "404 page not found" StatusNotFound).

Definition ServeHTTP (mux : gmap string HandlerFunc) : HandlerFunc :=
  fun w r =>
    match mux !! url.Path (URL r) with
    | Some h => h w r
    | None => NotFound w r
    end.

(** The reply to one request: the handler runs on a fresh response, and
    a handler that wrote nothing leaves an empty [200]. *)
Definition serve (mux : gmap string HandlerFunc) (r : Request)
  : M ResponseWriter :=
  w ← ServeHTTP mux newResponse r;
  mret (WriteHeader StatusOK w).

End http.

(** ** package main *)

Definition infuraURL : string :=
  "https://mainnet.infura.io/v3/c543932173e54a3fbbe7ce8e4d0c1e78".

(** [EthereumClient] wraps an [ethclient.Client]. *)
Record EthereumClient : Type := mkEthereumClient {
  client : ethclient.Client
}.

(** [encode w m] is [json.NewEncoder(w).Encode(m)]. *)
Definition encode (w : http.ResponseWriter) (m : json.Object)
  : http.ResponseWriter :=
  http.Write (json.Encode m) w.

Definition getLatestBlockNumber (ec : EthereumClient) : M (Z + error) :=
  res ← HeaderByNumber (client ec) None;
  match res with
  | inr err => mret (inr err)
  | inl header => mret (inl (types.Number header))
  end.

Definition getBalance (ec : EthereumClient) (address : string)
  : M (Z + error) :=
  let account := common.HexToAddress address in
  res ← BalanceAt (client ec) account None;
  match res with
  | inr err => mret (inr err)
  | inl balance => mret (inl balance)
  end.

(** The handler registered for [/latest-block]. *)
Definition latestBlockHandler (client : EthereumClient) : http.HandlerFunc :=
  fun w r =>
    res ← getLatestBlockNumber client;
    match res with
    | inr err => mret (http.Error w (Error err) http.StatusInternalServerError)
    | inl blockNumber =>
        mret (encode w [("latest_block", big.String blockNumber)])
    end.

(** The handler registered for [/balance]. *)
Definition balanceHandler (client : EthereumClient) : http.HandlerFunc :=
  fun w r =>
    let address := url.Get (url.Query (http.URL r)) "address" in
    if decide (address = EmptyString)
    then mret (http.Error w "Address is required" http.StatusBadRequest)
    else
      res ← getBalance client address;
      match res with
      | inr err =>
          mret (http.Error w (Error err) http.StatusInternalServerError)
      | inl balance => mret (encode w [("balance", big.String balance)])
      end.

(** The process: the routes of the default mux, what was printed, and
    whether it runs its start-up code, serves, or has exited. *)
Inductive Status : Type :=
| Starting
| Serving (addr : string)
| Exited (code : Z).

Record Process : Type := mkProcess {
  DefaultServeMux : gmap string http.HandlerFunc;
  stdout : list string;
  stderr : list string;
  state : Status
}.

Definition start : Process :=
  {| DefaultServeMux := ∅; stdout := []; stderr := []; state := Starting |}.

(** [http.HandleFunc] registers on the default mux. *)
Definition HandleFunc (pattern : string) (handler : http.HandlerFunc)
    (p : Process) : Process :=
  {| DefaultServeMux := <[pattern := handler]> (DefaultServeMux p);
     stdout := stdout p; stderr := stderr p; state := state p |}.

Definition Println (line : string) (p : Process) : Process :=
  {| DefaultServeMux := DefaultServeMux p; stdout := stdout p ++ [line];
     stderr := stderr p; state := state p |}.

(** [log.Fatal] and [log.Fatalf]: the message goes to standard error
    (the logger's time prefix is left out) and the process exits with
    code 1. *)
Definition Fatal (msg : string) (p : Process) : Process :=
  {| DefaultServeMux := DefaultServeMux p; stdout := stdout p;
     stderr := stderr p ++ [msg]; state := Exited 1 |}.

Section Startup.

(** The outside world at start-up: what [ethclient.Dial] returns for a
    URL, and whether binding a listen address fails. *)
Variable Dial : string -> ethclient.Client + error.
Variable Listen : string -> option error.

Definition NewEthereumClient : EthereumClient + error :=
  match Dial infuraURL with
  | inr err => inr err
  | inl client => inl {| client := client |}
  end.

(** [http.ListenAndServe(addr, nil)] serves the default mux until the
    process ends, unless the address cannot be bound; [main] passes
    that error to [log.Fatal]. *)
Definition ListenAndServe (addr : string) (p : Process) : Process :=
  match Listen addr with
  | Some err => Fatal (Error err) p
  | None =>
      {| DefaultServeMux := DefaultServeMux p; stdout := stdout p;
         stderr := stderr p; state := Serving addr |}
  end.

Definition main : Process :=
  match NewEthereumClient with
  | inr err => Fatal ("Failed to connect to Ethereum: " +:+ Error err) start
  | inl client =>
      let p := HandleFunc "/latest-block" (latestBlockHandler client) start in
      let p := HandleFunc "/balance" (balanceHandler client) p in
      let p := Println "Server running on port 8080" p in
      ListenAndServe ":8080" p
  end.

End Startup.

(** What the running process does: a serving process answers a request
    through its mux; the upstream calls of that request are those the
    handler adds to an empty log.  An exited process does nothing. *)
Inductive Event : Type :=
| Handled (r : http.Request) (w : http.ResponseWriter)
    (calls : list ethclient.Call).

Inductive step : Process -> Event -> Process -> Prop :=
| step_request p addr r w calls :
    state p = Serving addr ->
    http.serve (DefaultServeMux p) r [] = (w, calls) ->
    step p (Handled r w calls) p.

(** ** Runs of the process *)

(** What a process does from a given state on: the events in order. *)
Inductive run : Process -> list Event -> Process -> Prop :=
| run_done p : run p [] p
| run_step p ev p' evs p'' :
    step p ev p' -> run p' evs p'' -> run p (ev :: evs) p''.

(** ** Requests in flight *)

(** The adapter operations that requests issue, and a pool of them
    sharing one connection.  A step runs one pending operation, chosen
    freely, over that connection; the operations' upstream calls land in
    one shared log in the order they were made. *)
Inductive Op : Type :=
| OpLatestBlockNumber
| OpBalanceOf (address : string).

Definition runOp (ec : EthereumClient) (op : Op) : M (Z + error) :=
  match op with
  | OpLatestBlockNumber => getLatestBlockNumber ec
  | OpBalanceOf address => getBalance ec address
  end.

Inductive Task : Type :=
| Pending (op : Op)
| Finished (result : Z + error).

Record Pool : Type := mkPool {
  conn : EthereumClient;
  tasks : list Task;
  upstream : list ethclient.Call
}.

Definition submit (ec : EthereumClient) (ops : list Op) : Pool :=
  {| conn := ec; tasks := Pending <$> ops; upstream := [] |}.

Inductive pool_step : Pool -> Pool -> Prop :=
| pool_step_run ec ts calls (i : nat) op :
    ts !! i = Some (Pending op) ->
    pool_step
      {| conn := ec; tasks := ts; upstream := calls |}
      {| conn := ec;
         tasks := <[i := Finished (fst (runOp ec op calls))]> ts;
         upstream := snd (runOp ec op calls) |}.

Definition quiescent (p : Pool) : Prop :=
  forall (i : nat) op, tasks p !! i <> Some (Pending op).

(** Every task of a pool is an operation that was submitted, still
    pending or finished with the result the operation has on its own. *)
Definition pool_inv (ec : EthereumClient) (ops : list Op) (p : Pool) : Prop :=
  conn p = ec /\
  length (tasks p) = length ops /\
  forall (i : nat) t, tasks p !! i = Some t ->
    exists op, ops !! i = Some op /\
      (t = Pending op \/ t = Finished (fst (runOp ec op []))).

(** ** Addresses as callers write them *)

(** A string of hexadecimal digits. *)
Fixpoint isHexString (s : string) : bool :=
  match s with
  | EmptyString => true
  | String c s' => bool_decide (is_Some (hex.fromHexChar c)) && isHexString s'
  end.

(** Following the data model's words for an address given by a caller:
    a hexadecimal string with an optional [0x] prefix. *)
Definition wellFormedAddress (s : string) : bool :=
  isHexString
    (if common.has0xPrefix s
     then match s with String _ (String _ s') => s' | _ => s end
     else s).

(** ** Reply bodies on the wire *)

(** The bytes of a one-entry JSON object whose value needs no escape,
    followed by the line feed the encoder adds. *)
Definition jsonLine (key value : string) : string :=
  "{" +:+ String json.quote (key +:+ String json.quote (":" +:+
    String json.quote (value +:+ String json.quote ("}" +:+
      String json.newline EmptyString)))).

(** A message as [http.Error] writes it: one line. *)
Definition textLine (msg : string) : string :=
  msg +:+ String json.newline EmptyString.

(** ** Substitute connections, as the tests set them up *)

Module Substitute.

Definition zeroAddress : common.Address := replicate 20 0.

(** Reports height 12345 for the chain head and balance 1000 for the
    zero address at the chain head; any other call is unexpected. *)
Definition mockClient : ethclient.Client :=
  {| ethclient.header_response := fun number =>
       match number with
       | None => inl {| types.Number := 12345 |}
       | Some _ => inr {| Error := "unexpected call" |}
       end;
     ethclient.balance_response := fun account number =>
       match number with
       | None =>
           if decide (account = zeroAddress) then inl 1000
           else inr {| Error := "unexpected call" |}
       | Some _ => inr {| Error := "unexpected call" |}
       end |}.

(** Every call fails with the same error. *)
Definition failingClient (err : error) : ethclient.Client :=
  {| ethclient.header_response := fun _ => inr err;
     ethclient.balance_response := fun _ _ => inr err |}.

Definition dial (c : ethclient.Client) : string -> ethclient.Client + error :=
  fun _ => inl c.

Definition dialFails (err : error) : string -> ethclient.Client + error :=
  fun _ => inr err.

Definition listen : string -> option error := fun _ => None.

(** [GET path?key=value] and [GET path]. *)
Definition get (path : string) (query : url.Values) : http.Request :=
  {| http.Method := "GET";
     http.URL := {| url.Path := path; url.Query := query |} |}.

End Substitute.

(** ** Addresses written out: [hex.EncodeToString] and [Address.Hex] *)

(** encoding/hex's [hextable]: the lower-case digit of a value below
    16. *)
Definition hextable (n : Z) : ascii :=
  default "0"%char (String.get (Z.to_nat n) "0123456789abcdef").

(** [hex.EncodeToString]: two digits for every byte, high half first. *)
Fixpoint EncodeToString (src : list Z) : string :=
  match src with
  | [] => EmptyString
  | v :: src' =>
      String (hextable (Z.shiftr v 4))
        (String (hextable (Z.land v 15)) (EncodeToString src'))
  end.

(** The casing loop of [checksumHex] over the digits [buf[2:]]: digit
    number [k] is compared with half a byte of the hash (the high half
    for even [k]); a letter whose half byte exceeds 7 becomes a capital
    (its code minus 32). *)
Fixpoint checksumCase (hash : list Z) (k : nat) (buf : string) : string :=
  match buf with
  | EmptyString => EmptyString
  | String ch buf' =>
      let hashByte := default 0 (hash !! (k / 2)%nat) in
      let hashByte := if Nat.even k then Z.shiftr hashByte 4
                      else Z.land hashByte 15 in
      let code := Z.of_N (N_of_ascii ch) in
      let ch' := if (57 <? code) && (7 <? hashByte)
                 then ascii_of_N (Z.to_N (code - 32)) else ch in
      String ch' (checksumCase hash (S k) buf')
  end.

Section Checksum.

(** Keccak-256 of the bytes of a string; its digest is taken as
    given. *)
Variable Keccak256 : string -> list Z.

(** [Address.Hex]: the prefix [0x] and the 40 digits, with the
    checksum casing. *)
Definition Hex (a : common.Address) : string :=
  let digits := EncodeToString a in
  "0x" +:+ checksumCase (Keccak256 digits) 0 digits.

End Checksum.

(** ** Notions used to state properties *)

(** A byte value. *)
Definition isByte (b : Z) : Prop := 0 <= b < 256.

(** The block selector of an upstream call. *)
Definition callNumber (call : ethclient.Call) : option Z :=
  match call with
  | ethclient.CallHeaderByNumber number => number
  | ethclient.CallBalanceAt _ number => number
  end.

(** ASCII lower case of a byte and of a string. *)
Definition asciiLower (c : ascii) : ascii :=
  let n := Z.of_N (N_of_ascii c) in
  if (65 <=? n) && (n <=? 90) then ascii_of_N (Z.to_N (n + 32)) else c.

Fixpoint lower (s : string) : string :=
  match s with
  | EmptyString => EmptyString
  | String c s' => String (asciiLower c) (lower s')
  end.

(** The number that a string of hexadecimal digits writes, and the
    number that a sequence of bytes is when read big-endian. *)
Fixpoint hexValueFrom (acc : Z) (s : string) : Z :=
  match s with
  | EmptyString => acc
  | String c s' =>
      hexValueFrom (16 * acc + default 0 (hex.fromHexChar c)) s'
  end.

Definition hexValue (s : string) : Z := hexValueFrom 0 s.

Fixpoint bigEndianFrom (acc : Z) (bs : list Z) : Z :=
  match bs with
  | [] => acc
  | b :: bs' => bigEndianFrom (256 * acc + b) bs'
  end.

Definition bigEndian (bs : list Z) : Z := bigEndianFrom 0 bs.

(** The two routes of the program. *)
Definition isRoute (path : string) : Prop :=
  path = "/latest-block"%string \/ path = "/balance"%string.

(** * Properties *)

(** ** The libraries *)

Lemma M_bind_eq {A B} (m : M A) (f : A -> M B) calls :
  (m ≫= f) calls = let '(a, calls') := m calls in f a calls'.
Proof. reflexivity. Qed.

(** The decimal string of a number reads back as that number. *)
Lemma big_String_parse (n : Z) :
  Z.of_int <$> NilZero.int_of_string (big.String n) = Some n.
Proof.
  unfold big.String.
  rewrite NilZero.isi.
  - simpl. f_equal. apply DecimalZ.of_to.
  - destruct n as [|p|p]; simpl; try discriminate.
    intros [= H]. by apply DecimalPos.Unsigned.to_uint_nonnil in H.
  - destruct n as [|p|p]; simpl; try discriminate.
    intros [= H]. by apply DecimalPos.Unsigned.to_uint_nonnil in H.
Qed.

Lemma encodeBytes_uint (d : Decimal.uint) :
  json.encodeBytes (NilEmpty.string_of_uint d) = NilEmpty.string_of_uint d.
Proof.
  induction d as [|d IH|d IH|d IH|d IH|d IH|d IH|d IH|d IH|d IH|d IH];
    [reflexivity | ..]; cbn [NilEmpty.string_of_uint json.encodeBytes];
    rewrite IH; reflexivity.
Qed.

(** The encoder copies a decimal string as it is: no byte of it needs an
    escape. *)
Lemma encodeBytes_decimal (n : Z) :
  json.encodeBytes (big.String n) = big.String n.
Proof.
  unfold big.String, NilZero.string_of_int.
  assert (Hu : forall d, json.encodeBytes (NilZero.string_of_uint d)
                         = NilZero.string_of_uint d).
  { intros d. unfold NilZero.string_of_uint.
    destruct d; first reflexivity; apply encodeBytes_uint. }
  destruct (Z.to_int n) as [d|d]; first apply Hu.
  cbn [json.encodeBytes]. rewrite Hu. reflexivity.
Qed.

(** ** The serving process *)

Section Serving.

Variable Dial : string -> ethclient.Client + error.
Variable Listen : string -> option error.
Variable c : ethclient.Client.
Hypothesis Hdial : Dial infuraURL = inl c.
Hypothesis Hlisten : Listen ":8080" = None.

Let ec : EthereumClient := {| client := c |}.

Lemma main_serving :
  main Dial Listen =
  {| DefaultServeMux :=
       <["/balance" := balanceHandler ec]>
         (<["/latest-block" := latestBlockHandler ec]> ∅);
     stdout := ["Server running on port 8080"];
     stderr := [];
     state := Serving ":8080" |}.
Proof.
  unfold main, NewEthereumClient, ListenAndServe.
  rewrite Hdial. cbn. rewrite Hlisten. reflexivity.
Qed.

Lemma serve_latest_block (r : http.Request) :
  url.Path (http.URL r) = "/latest-block" ->
  http.serve (DefaultServeMux (main Dial Listen)) r =
  (w ← latestBlockHandler ec http.newResponse r;
   mret (http.WriteHeader http.StatusOK w)).
Proof.
  intros Hpath. rewrite main_serving. unfold http.serve, http.ServeHTTP.
  cbn [DefaultServeMux]. rewrite Hpath.
  rewrite lookup_insert_ne by done. rewrite lookup_insert_eq. reflexivity.
Qed.

Lemma serve_balance (r : http.Request) :
  url.Path (http.URL r) = "/balance" ->
  http.serve (DefaultServeMux (main Dial Listen)) r =
  (w ← balanceHandler ec http.newResponse r;
   mret (http.WriteHeader http.StatusOK w)).
Proof.
  intros Hpath. rewrite main_serving. unfold http.serve, http.ServeHTTP.
  cbn [DefaultServeMux]. rewrite Hpath.
  rewrite lookup_insert_eq. reflexivity.
Qed.

End Serving.

Lemma string_app_cons (a : ascii) (s1 s2 : string) :
  String a s1 +:+ s2 = String a (s1 +:+ s2).
Proof. reflexivity. Qed.

Lemma string_app_nil (s : string) : EmptyString +:+ s = s.
Proof. reflexivity. Qed.

Lemma string_app_assoc (s1 s2 s3 : string) :
  (s1 +:+ s2) +:+ s3 = s1 +:+ (s2 +:+ s3).
Proof.
  induction s1 as [|a s1 IH]; first reflexivity.
  rewrite !string_app_cons. by rewrite IH.
Qed.

Lemma jsonLine_Encode (key : string) (n : Z) :
  json.encodeBytes key = key ->
  json.Encode [(key, big.String n)] = jsonLine key (big.String n).
Proof.
  intros Hkey. unfold json.Encode, json.Marshal, jsonLine.
  cbn [json.encodeEntries]. unfold json.encodeString.
  rewrite Hkey, encodeBytes_decimal.
  repeat (rewrite string_app_assoc || rewrite string_app_cons
          || rewrite string_app_nil).
  reflexivity.
Qed.

(** ** The adapter *)

Lemma getLatestBlockNumber_eq (ec : EthereumClient) calls :
  getLatestBlockNumber ec calls =
  (match ethclient.header_response (client ec) None with
   | inl header => inl (types.Number header)
   | inr err => inr err
   end,
   calls ++ [ethclient.CallHeaderByNumber None]).
Proof.
  unfold getLatestBlockNumber, HeaderByNumber. rewrite M_bind_eq.
  by destruct (ethclient.header_response (client ec) None).
Qed.

Lemma getBalance_eq (ec : EthereumClient) (address : string) calls :
  getBalance ec address calls =
  (ethclient.balance_response (client ec) (common.HexToAddress address) None,
   calls ++ [ethclient.CallBalanceAt (common.HexToAddress address) None]).
Proof.
  unfold getBalance, BalanceAt. rewrite M_bind_eq.
  by destruct (ethclient.balance_response _ _ _).
Qed.

(** ** The two endpoints *)

Lemma latestBlockHandler_eq (ec : EthereumClient) w r calls :
  latestBlockHandler ec w r calls =
  (match ethclient.header_response (client ec) None with
   | inl header =>
       encode w [("latest_block", big.String (types.Number header))]
   | inr err => http.Error w (Error err) http.StatusInternalServerError
   end,
   calls ++ [ethclient.CallHeaderByNumber None]).
Proof.
  unfold latestBlockHandler. rewrite M_bind_eq, getLatestBlockNumber_eq.
  by destruct (ethclient.header_response (client ec) None).
Qed.

Lemma balanceHandler_eq (ec : EthereumClient) w r calls :
  balanceHandler ec w r calls =
  let address := url.Get (url.Query (http.URL r)) "address" in
  if decide (address = EmptyString)
  then (http.Error w "Address is required" http.StatusBadRequest, calls)
  else
    (match ethclient.balance_response (client ec)
             (common.HexToAddress address) None with
     | inl balance => encode w [("balance", big.String balance)]
     | inr err => http.Error w (Error err) http.StatusInternalServerError
     end,
     calls ++ [ethclient.CallBalanceAt (common.HexToAddress address) None]).
Proof.
  unfold balanceHandler. cbn zeta. case_decide; first reflexivity.
  rewrite M_bind_eq, getBalance_eq.
  by destruct (ethclient.balance_response _ _ _).
Qed.

(** C1.  A request for [/latest-block] whose adapter call succeeds is
    answered with status 200 and the JSON object whose only entry
    [latest_block] is the decimal string of the height of the chain head:
    [getLatestBlockNumber] asks for the header with no block selector and
    returns its number.  The encoder writes the object without white
    space and ends it with a line feed.  For a connection reporting
    height 12345 the object is [{"latest_block":"12345"}]. *)
Theorem latest_block_ok Dial Listen c header (r : http.Request) :
  Dial infuraURL = inl c ->
  Listen ":8080" = None ->
  url.Path (http.URL r) = "/latest-block" ->
  ethclient.header_response c None = inl header ->
  getLatestBlockNumber {| client := c |} [] =
    (inl (types.Number header), [ethclient.CallHeaderByNumber None]) /\
  Z.of_int <$> NilZero.int_of_string (big.String (types.Number header)) =
    Some (types.Number header) /\
  exists w,
    http.serve (DefaultServeMux (main Dial Listen)) r [] =
      (w, [ethclient.CallHeaderByNumber None]) /\
    http.status w = http.StatusOK /\
    http.body w =
      json.Encode [("latest_block", big.String (types.Number header))] /\
    http.body w = jsonLine "latest_block" (big.String (types.Number header)) /\
    (types.Number header = 12345 ->
     http.body w = jsonLine "latest_block" "12345").
Proof.
  intros Hdial Hlisten Hpath Hhead.
  split; [|split].
  - rewrite getLatestBlockNumber_eq. cbn [client]. by rewrite Hhead.
  - apply big_String_parse.
  - eexists. split.
    { rewrite (serve_latest_block Dial Listen c Hdial Hlisten r Hpath).
      rewrite M_bind_eq, latestBlockHandler_eq. cbn [client].
      rewrite Hhead. reflexivity. }
    assert (Hbody : json.Encode
                      [("latest_block", big.String (types.Number header))] =
                    jsonLine "latest_block" (big.String (types.Number header)))
      by (by apply jsonLine_Encode).
    split; [reflexivity|]. split; [reflexivity|]. split; [exact Hbody|].
    intros Hn. rewrite Hn in Hbody |- *. exact Hbody.
Qed.

Lemma latest_block_ok_witness :
  exists w,
    http.serve
      (DefaultServeMux
         (main (Substitute.dial Substitute.mockClient) Substitute.listen))
      (Substitute.get "/latest-block" ∅) [] =
      (w, [ethclient.CallHeaderByNumber None]) /\
    http.status w = 200 /\
    http.body w = jsonLine "latest_block" "12345".
Proof.
  destruct (latest_block_ok (Substitute.dial Substitute.mockClient)
              Substitute.listen Substitute.mockClient
              {| types.Number := 12345 |}
              (Substitute.get "/latest-block" ∅)
              eq_refl eq_refl eq_refl eq_refl)
    as (_ & _ & w & Hserve & Hstatus & _ & _ & Hbody).
  exists w. split; [exact Hserve | split; [exact Hstatus | exact (Hbody eq_refl)]].
Defined.

(** C2.  A request for [/balance] with a non-empty [address] whose
    adapter call succeeds is answered with status 200 and the JSON object
    whose only entry [balance] is the decimal string of the balance that
    [getBalance] returns: the balance of the normalized address, asked
    for with no block selector.  For a connection holding balance 1000
    for the zero address, [address=0x0] gives [{"balance":"1000"}]. *)
Theorem balance_ok Dial Listen c balance (address : string)
    (r : http.Request) :
  Dial infuraURL = inl c ->
  Listen ":8080" = None ->
  url.Path (http.URL r) = "/balance" ->
  url.Get (url.Query (http.URL r)) "address" = address ->
  address <> EmptyString ->
  ethclient.balance_response c (common.HexToAddress address) None
    = inl balance ->
  getBalance {| client := c |} address [] =
    (inl balance,
     [ethclient.CallBalanceAt (common.HexToAddress address) None]) /\
  Z.of_int <$> NilZero.int_of_string (big.String balance) = Some balance /\
  exists w,
    http.serve (DefaultServeMux (main Dial Listen)) r [] =
      (w, [ethclient.CallBalanceAt (common.HexToAddress address) None]) /\
    http.status w = http.StatusOK /\
    http.body w = json.Encode [("balance", big.String balance)] /\
    http.body w = jsonLine "balance" (big.String balance) /\
    (address = "0x0" -> balance = 1000 ->
     common.HexToAddress address = Substitute.zeroAddress /\
     http.body w = jsonLine "balance" "1000").
Proof.
  intros Hdial Hlisten Hpath Haddr Hne Hbal.
  split; [|split].
  - rewrite getBalance_eq. cbn [client]. by rewrite Hbal.
  - apply big_String_parse.
  - eexists. split.
    { rewrite (serve_balance Dial Listen c Hdial Hlisten r Hpath).
      rewrite M_bind_eq, balanceHandler_eq. cbn zeta. rewrite Haddr.
      rewrite decide_False by exact Hne. cbn [client].
      rewrite Hbal. reflexivity. }
    assert (Hbody : json.Encode [("balance", big.String balance)] =
                    jsonLine "balance" (big.String balance))
      by (by apply jsonLine_Encode).
    split; [reflexivity|]. split; [reflexivity|]. split; [exact Hbody|].
    intros Hzero Hthousand. split.
    + rewrite Hzero. reflexivity.
    + rewrite Hthousand in Hbody |- *. exact Hbody.
Qed.

Lemma balance_ok_witness :
  exists w,
    http.serve
      (DefaultServeMux
         (main (Substitute.dial Substitute.mockClient) Substitute.listen))
      (Substitute.get "/balance" {[ "address" := ["0x0"%string] ]}) [] =
      (w, [ethclient.CallBalanceAt Substitute.zeroAddress None]) /\
    http.status w = 200 /\
    http.body w = jsonLine "balance" "1000".
Proof.
  destruct (balance_ok (Substitute.dial Substitute.mockClient)
              Substitute.listen Substitute.mockClient 1000 "0x0"
              (Substitute.get "/balance" {[ "address" := ["0x0"%string] ]}))
    as (_ & _ & w & Hserve & Hstatus & _ & _ & Hex);
    [reflexivity | reflexivity | reflexivity | reflexivity
    | discriminate | reflexivity | ].
  exists w.
  split; [exact Hserve | split; [exact Hstatus |]].
  exact (proj2 (Hex eq_refl eq_refl)).
Defined.

(** The reply of [/balance] when [Get] finds no address. *)
Lemma serve_balance_missing Dial Listen c (r : http.Request) calls :
  Dial infuraURL = inl c ->
  Listen ":8080" = None ->
  url.Path (http.URL r) = "/balance" ->
  url.Get (url.Query (http.URL r)) "address" = EmptyString ->
  http.serve (DefaultServeMux (main Dial Listen)) r calls =
    (http.Error http.newResponse "Address is required" http.StatusBadRequest,
     calls).
Proof.
  intros Hdial Hlisten Hpath Haddr.
  rewrite (serve_balance Dial Listen c Hdial Hlisten r Hpath).
  rewrite M_bind_eq, balanceHandler_eq. cbn zeta. rewrite Haddr.
  reflexivity.
Qed.

(** The reply of [/balance] for a non-empty address: the address goes
    upstream, whatever it looks like. *)
Lemma serve_balance_forwarded Dial Listen c (address : string)
    (r : http.Request) calls :
  Dial infuraURL = inl c ->
  Listen ":8080" = None ->
  url.Path (http.URL r) = "/balance" ->
  url.Get (url.Query (http.URL r)) "address" = address ->
  address <> EmptyString ->
  http.serve (DefaultServeMux (main Dial Listen)) r calls =
    (match ethclient.balance_response c (common.HexToAddress address) None with
     | inl balance =>
         encode http.newResponse [("balance", big.String balance)]
     | inr err =>
         http.Error http.newResponse (Error err)
           http.StatusInternalServerError
     end,
     calls ++ [ethclient.CallBalanceAt (common.HexToAddress address) None]).
Proof.
  intros Hdial Hlisten Hpath Haddr Hne.
  rewrite (serve_balance Dial Listen c Hdial Hlisten r Hpath).
  rewrite M_bind_eq, balanceHandler_eq. cbn zeta. rewrite Haddr.
  rewrite decide_False by exact Hne. cbn [client].
  by destruct (ethclient.balance_response _ _ _).
Qed.

(** C3, as stated, fails on the body: [http.Error] writes the message
    as a line, so the body of the 400 reply is the message followed by a
    line feed, not the message alone. *)
Lemma address_absent_body_not_exact :
  let reply :=
    http.serve
      (DefaultServeMux
         (main (Substitute.dial Substitute.mockClient) Substitute.listen))
      (Substitute.get "/balance" ∅) [] in
  http.status (fst reply) = 400 /\
  snd reply = [] /\
  http.body (fst reply) <> "Address is required"%string /\
  http.body (fst reply) =
    "Address is required" +:+ String json.newline EmptyString.
Proof.
  cbn zeta.
  rewrite (serve_balance_missing (Substitute.dial Substitute.mockClient)
             Substitute.listen Substitute.mockClient)
    by reflexivity.
  split; [reflexivity|]. split; [reflexivity|]. split; [|reflexivity].
  intros H. vm_compute in H. discriminate H.
Qed.

(** C3, amended.  A request for [/balance] without the [address]
    parameter is answered with status 400 and a body that is exactly
    the message [Address is required] followed by one line feed, and no
    upstream call is made: the log of upstream calls is left as it was.
    The reply is the one [http.Error] builds for that message. *)
Theorem balance_address_absent Dial Listen c (r : http.Request) :
  Dial infuraURL = inl c ->
  Listen ":8080" = None ->
  url.Path (http.URL r) = "/balance" ->
  url.Query (http.URL r) !! "address" = None ->
  exists w,
    (forall calls,
       http.serve (DefaultServeMux (main Dial Listen)) r calls = (w, calls)) /\
    w = http.Error http.newResponse "Address is required"
          http.StatusBadRequest /\
    http.status w = 400 /\
    http.body w = textLine "Address is required".
Proof.
  intros Hdial Hlisten Hpath Habsent.
  assert (Haddr : url.Get (url.Query (http.URL r)) "address" = EmptyString)
    by (unfold url.Get; by rewrite Habsent).
  exists (http.Error http.newResponse "Address is required"
            http.StatusBadRequest).
  split; [|repeat split].
  intros calls. by eapply serve_balance_missing.
Qed.

Lemma balance_address_absent_witness :
  exists w,
    http.serve
      (DefaultServeMux
         (main (Substitute.dial Substitute.mockClient) Substitute.listen))
      (Substitute.get "/balance" ∅) [] = (w, []) /\
    http.status w = 400 /\
    http.body w = textLine "Address is required".
Proof.
  destruct (balance_address_absent (Substitute.dial Substitute.mockClient)
              Substitute.listen Substitute.mockClient
              (Substitute.get "/balance" ∅))
    as (w & Hserve & _ & Hstatus & Hbody);
    [reflexivity | reflexivity | reflexivity | reflexivity |].
  exists w. split; [exact (Hserve []) | split; [exact Hstatus | exact Hbody]].
Defined.

(** C10.  A request for [/balance] whose [address] parameter is present
    with an empty value gets the same reply as one without the
    parameter: [Get] returns the empty string in both cases, the handler
    compares that value with the empty string, and the reply is status
    400 with the text [Address is required]; no upstream call is made. *)
Theorem balance_address_empty_value Dial Listen c (r r' : http.Request)
    (more : list string) :
  Dial infuraURL = inl c ->
  Listen ":8080" = None ->
  url.Path (http.URL r) = "/balance" ->
  url.Path (http.URL r') = "/balance" ->
  url.Query (http.URL r) !! "address" = Some (EmptyString :: more) ->
  url.Query (http.URL r') !! "address" = None ->
  url.Get (url.Query (http.URL r)) "address" = EmptyString /\
  (forall calls,
     http.serve (DefaultServeMux (main Dial Listen)) r calls =
     http.serve (DefaultServeMux (main Dial Listen)) r' calls) /\
  exists w,
    (forall calls,
       http.serve (DefaultServeMux (main Dial Listen)) r calls = (w, calls)) /\
    w = http.Error http.newResponse "Address is required"
          http.StatusBadRequest /\
    http.status w = 400 /\
    http.body w = textLine "Address is required".
Proof.
  intros Hdial Hlisten Hpath Hpath' Hempty Habsent.
  assert (Haddr : url.Get (url.Query (http.URL r)) "address" = EmptyString)
    by (unfold url.Get; by rewrite Hempty).
  assert (Haddr' : url.Get (url.Query (http.URL r')) "address" = EmptyString)
    by (unfold url.Get; by rewrite Habsent).
  split; [exact Haddr|]. split.
  - intros calls.
    rewrite (serve_balance_missing Dial Listen c r calls) by assumption.
    by rewrite (serve_balance_missing Dial Listen c r' calls) by assumption.
  - exists (http.Error http.newResponse "Address is required"
              http.StatusBadRequest).
    split; [|repeat split].
    intros calls. by eapply serve_balance_missing.
Qed.

Lemma balance_address_empty_value_witness :
  http.serve
    (DefaultServeMux
       (main (Substitute.dial Substitute.mockClient) Substitute.listen))
    (Substitute.get "/balance" {[ "address" := [EmptyString] ]}) [] =
  http.serve
    (DefaultServeMux
       (main (Substitute.dial Substitute.mockClient) Substitute.listen))
    (Substitute.get "/balance" ∅) [].
Proof.
  destruct (balance_address_empty_value
              (Substitute.dial Substitute.mockClient)
              Substitute.listen Substitute.mockClient
              (Substitute.get "/balance" {[ "address" := [EmptyString] ]})
              (Substitute.get "/balance" ∅) [])
    as (_ & Hsame & _);
    [reflexivity | reflexivity | reflexivity | reflexivity
    | reflexivity | reflexivity |].
  exact (Hsame []).
Defined.

(** Every request is answered: whatever the mux and the request, the
    reply has its status line written. *)
Lemma serve_responds (mux : gmap string http.HandlerFunc) (r : http.Request)
    calls :
  http.wroteHeader (fst (http.serve mux r calls)) = true.
Proof.
  unfold http.serve. rewrite M_bind_eq.
  destruct (http.ServeHTTP mux http.newResponse r calls) as [w calls'].
  cbn. unfold http.WriteHeader. by destruct (http.wroteHeader w) eqn:E.
Qed.

(** C4.  When the adapter call of an endpoint fails, that request is
    answered with status 500 and the text of the error; the log holds
    the one failed call and no second attempt; the body is the error
    text alone (one line, as [http.Error] writes it), so no JSON object
    is written; and the reply has its status line written. *)
Theorem upstream_failure_500 Dial Listen c err (r : http.Request) :
  Dial infuraURL = inl c ->
  Listen ":8080" = None ->
  (url.Path (http.URL r) = "/latest-block" /\
   ethclient.header_response c None = inr err) \/
  (url.Path (http.URL r) = "/balance" /\
   url.Get (url.Query (http.URL r)) "address" <> EmptyString /\
   ethclient.balance_response c
     (common.HexToAddress (url.Get (url.Query (http.URL r)) "address")) None
   = inr err) ->
  exists w call,
    http.serve (DefaultServeMux (main Dial Listen)) r [] = (w, [call]) /\
    call = (if decide (url.Path (http.URL r) = "/latest-block")
            then ethclient.CallHeaderByNumber None
            else ethclient.CallBalanceAt
                   (common.HexToAddress
                      (url.Get (url.Query (http.URL r)) "address")) None) /\
    w = http.Error http.newResponse (Error err)
          http.StatusInternalServerError /\
    http.status w = 500 /\
    http.body w = textLine (Error err) /\
    http.wroteHeader w = true.
Proof.
  intros Hdial Hlisten [[Hpath Hfail] | (Hpath & Hne & Hfail)].
  - eexists _, _. split.
    { rewrite (serve_latest_block Dial Listen c Hdial Hlisten r Hpath).
      rewrite M_bind_eq, latestBlockHandler_eq. cbn [client].
      rewrite Hfail. reflexivity. }
    rewrite decide_True by exact Hpath. repeat split.
  - eexists _, _. split.
    { rewrite (serve_balance_forwarded Dial Listen c _ r [] Hdial Hlisten
                 Hpath eq_refl Hne).
      rewrite Hfail. reflexivity. }
    rewrite decide_False by (rewrite Hpath; discriminate). repeat split.
Qed.

Lemma upstream_failure_500_witness :
  exists w,
    http.serve
      (DefaultServeMux
         (main (Substitute.dial
                  (Substitute.failingClient {| Error := "connection refused" |}))
               Substitute.listen))
      (Substitute.get "/latest-block" ∅) [] =
      (w, [ethclient.CallHeaderByNumber None]) /\
    http.status w = 500 /\
    http.body w = textLine "connection refused".
Proof.
  destruct (upstream_failure_500
              (Substitute.dial
                 (Substitute.failingClient {| Error := "connection refused" |}))
              Substitute.listen
              (Substitute.failingClient {| Error := "connection refused" |})
              {| Error := "connection refused" |}
              (Substitute.get "/latest-block" ∅))
    as (w & call & Hserve & Hcall & _ & Hstatus & Hbody & _);
    [reflexivity | reflexivity | left; split; reflexivity |].
  exists w. rewrite Hcall in Hserve.
  split; [exact Hserve | split; [exact Hstatus | exact Hbody]].
Defined.

(** ** Addresses *)

Lemma SetBytes_length (b : list Z) :
  length (common.SetBytes b) = common.AddressLength.
Proof.
  unfold common.SetBytes, common.AddressLength.
  case_decide; rewrite length_app, length_replicate, ?length_drop; lia.
Qed.

Lemma HexToAddress_length (s : string) :
  length (common.HexToAddress s) = common.AddressLength.
Proof. apply SetBytes_length. Qed.

Lemma isHexString_no_prefix (s : string) :
  isHexString s = true -> common.has0xPrefix s = false.
Proof.
  destruct s as [|c0 [|c1 s]]; try reflexivity.
  cbn [isHexString common.has0xPrefix].
  intros H. apply andb_prop in H as [_ H]. apply andb_prop in H as [H _].
  apply bool_decide_eq_true in H.
  apply andb_false_intro2. apply orb_false_intro;
    apply bool_decide_eq_false; intros ->; vm_compute in H;
    by destruct H.
Qed.

(** Stripping: the prefix [0x] is dropped and nothing else. *)
Lemma FromHex_prefix (s : string) :
  common.has0xPrefix s = false ->
  common.FromHex ("0x" +:+ s) = common.FromHex s.
Proof.
  intros Hno. unfold common.FromHex. rewrite Hno.
  change ("0x" +:+ s) with (String "0" (String "x" s)).
  reflexivity.
Qed.

(** C6, as stated, fails: a malformed address that is not empty is not
    rejected.  [zz] holds no hexadecimal digit; it is normalized to the
    zero address, forwarded upstream, and answered as that address. *)
Lemma malformed_address_not_rejected :
  let reply :=
    http.serve
      (DefaultServeMux
         (main (Substitute.dial Substitute.mockClient) Substitute.listen))
      (Substitute.get "/balance" {[ "address" := ["zz"%string] ]}) [] in
  wellFormedAddress "zz" = false /\
  http.status (fst reply) = 200 /\
  http.status (fst reply) <> 400 /\
  http.body (fst reply) = jsonLine "balance" "1000" /\
  snd reply = [ethclient.CallBalanceAt Substitute.zeroAddress None].
Proof.
  cbn zeta.
  rewrite (serve_balance_forwarded (Substitute.dial Substitute.mockClient)
             Substitute.listen Substitute.mockClient "zz")
    by (reflexivity || discriminate).
  split; [reflexivity|]. split; [reflexivity|]. split; [discriminate|].
  split; reflexivity.
Qed.

(** C6, amended.  Of the input of [/balance] only the presence of an
    address is checked.  When [Get] finds none (parameter absent or its
    first value empty) the reply is status 400 and nothing goes
    upstream.  Any non-empty address, well formed or not, is normalized
    and forwarded upstream in one call, and the reply is 200 or 500,
    never 400. *)
Theorem balance_address_validation Dial Listen c (address : string)
    (r : http.Request) :
  Dial infuraURL = inl c ->
  Listen ":8080" = None ->
  url.Path (http.URL r) = "/balance" ->
  url.Get (url.Query (http.URL r)) "address" = address ->
  exists w calls,
    http.serve (DefaultServeMux (main Dial Listen)) r [] = (w, calls) /\
    (address = EmptyString -> http.status w = 400 /\ calls = []) /\
    (address <> EmptyString ->
     calls = [ethclient.CallBalanceAt (common.HexToAddress address) None] /\
     (http.status w = 200 \/ http.status w = 500) /\
     http.status w <> 400).
Proof.
  intros Hdial Hlisten Hpath Haddr.
  destruct (decide (address = EmptyString)) as [Hempty | Hne].
  - eexists _, _. split.
    { eapply serve_balance_missing; try eassumption. congruence. }
    split; [by intros _ | by intros Hne].
  - eexists _, _. split.
    { by eapply serve_balance_forwarded. }
    split; [by intros Hempty |]. intros _. split; [reflexivity|].
    destruct (ethclient.balance_response c _ None);
      split; (by left) || (by right) || discriminate.
Qed.

Lemma balance_address_validation_witness :
  exists w,
    http.serve
      (DefaultServeMux
         (main (Substitute.dial Substitute.mockClient) Substitute.listen))
      (Substitute.get "/balance" {[ "address" := ["zz"%string] ]}) [] =
      (w, [ethclient.CallBalanceAt (common.HexToAddress "zz") None]) /\
    http.status w <> 400.
Proof.
  destruct (balance_address_validation
              (Substitute.dial Substitute.mockClient)
              Substitute.listen Substitute.mockClient "zz"
              (Substitute.get "/balance" {[ "address" := ["zz"%string] ]}))
    as (w & calls & Hserve & _ & Hforward);
    [reflexivity | reflexivity | reflexivity | reflexivity |].
  destruct Hforward as (Hcalls & _ & Hstatus); [discriminate|].
  exists w. rewrite Hcalls in Hserve. split; [exact Hserve | exact Hstatus].
Defined.

(** C7.  For a string [s] of hexadecimal digits, [s] and [0x] followed
    by [s] normalize to the same address, which has 20 bytes, so
    [getBalance] makes the same upstream call and returns the same
    result for both against any connection; and for a non-empty [s] the
    two requests for [/balance] get the same reply. *)
Theorem hex_prefix_same_balance (s : string) :
  isHexString s = true ->
  common.HexToAddress ("0x" +:+ s) = common.HexToAddress s /\
  length (common.HexToAddress s) = 20%nat /\
  (forall (ec : EthereumClient) calls,
     getBalance ec ("0x" +:+ s) calls = getBalance ec s calls) /\
  (forall Dial Listen c (r r' : http.Request) calls,
     Dial infuraURL = inl c ->
     Listen ":8080" = None ->
     s <> EmptyString ->
     url.Path (http.URL r) = "/balance" ->
     url.Path (http.URL r') = "/balance" ->
     url.Get (url.Query (http.URL r)) "address" = s ->
     url.Get (url.Query (http.URL r')) "address" = "0x" +:+ s ->
     http.serve (DefaultServeMux (main Dial Listen)) r calls =
     http.serve (DefaultServeMux (main Dial Listen)) r' calls).
Proof.
  intros Hhex.
  assert (Heq : common.HexToAddress ("0x" +:+ s) = common.HexToAddress s).
  { unfold common.HexToAddress.
    by rewrite FromHex_prefix by by apply isHexString_no_prefix. }
  split; [exact Heq|]. split; [apply HexToAddress_length|]. split.
  - intros ec calls. rewrite !getBalance_eq. by rewrite Heq.
  - intros Dial Listen c r r' calls Hdial Hlisten Hne Hpath Hpath' Hr Hr'.
    rewrite (serve_balance_forwarded Dial Listen c s r calls) by assumption.
    rewrite (serve_balance_forwarded Dial Listen c ("0x" +:+ s) r' calls)
      by (assumption || discriminate).
    by rewrite Heq.
Qed.

Lemma hex_prefix_same_balance_witness :
  common.HexToAddress "0x00000000000000000000000000000000000000ff" =
  common.HexToAddress "00000000000000000000000000000000000000ff".
Proof.
  destruct (hex_prefix_same_balance
              "00000000000000000000000000000000000000ff")
    as (Heq & _); [reflexivity | exact Heq].
Defined.

(** ** Start-up *)

Lemma exited_no_step (p : Process) code ev p' :
  state p = Exited code -> ~ step p ev p'.
Proof. intros Hexit Hstep. inversion Hstep; subst. congruence. Qed.

(** A serving process, by contrast, answers every request. *)
Lemma serving_step (p : Process) addr (r : http.Request) :
  state p = Serving addr ->
  exists w calls, step p (Handled r w calls) p.
Proof.
  intros Hserving.
  destruct (http.serve (DefaultServeMux p) r []) as [w calls] eqn:Hserve.
  exists w, calls. by eapply step_request.
Qed.

(** C8.  When the connection cannot be established, [main] ends in
    [log.Fatalf]: the process has exited with code 1, nothing was
    registered on the mux, the start-up line was not printed, and the
    process handles no request, now or later. *)
Theorem connect_failure_is_fatal Dial Listen err :
  Dial infuraURL = inr err ->
  NewEthereumClient Dial = inr err /\
  main Dial Listen =
    Fatal ("Failed to connect to Ethereum: " +:+ Error err) start /\
  state (main Dial Listen) = Exited 1 /\
  DefaultServeMux (main Dial Listen) = ∅ /\
  stdout (main Dial Listen) = [] /\
  (forall ev p', ~ step (main Dial Listen) ev p') /\
  (forall evs p',
     run (main Dial Listen) evs p' -> evs = [] /\ p' = main Dial Listen).
Proof.
  intros Hdial.
  assert (Hnew : NewEthereumClient Dial = inr err)
    by (unfold NewEthereumClient; by rewrite Hdial).
  assert (Hmain : main Dial Listen =
                  Fatal ("Failed to connect to Ethereum: " +:+ Error err) start)
    by (unfold main; by rewrite Hnew).
  split; [exact Hnew|]. split; [exact Hmain|].
  rewrite Hmain. split; [reflexivity|]. split; [reflexivity|].
  split; [reflexivity|].
  assert (Hstuck : forall ev p',
            ~ step (Fatal ("Failed to connect to Ethereum: " +:+ Error err)
                      start) ev p')
    by (intros ev p'; by eapply exited_no_step).
  split; [exact Hstuck|].
  intros evs p' Hrun. inversion Hrun as [|? ev ? ? ? Hstep]; subst.
  - by split.
  - by apply Hstuck in Hstep.
Qed.

Lemma connect_failure_is_fatal_witness :
  state (main (Substitute.dialFails {| Error := "no route to host" |})
           Substitute.listen) = Exited 1 /\
  DefaultServeMux
    (main (Substitute.dialFails {| Error := "no route to host" |})
       Substitute.listen) = ∅.
Proof.
  destruct (connect_failure_is_fatal
              (Substitute.dialFails {| Error := "no route to host" |})
              Substitute.listen {| Error := "no route to host" |})
    as (_ & _ & Hstate & Hmux & _); [reflexivity |].
  split; [exact Hstate | exact Hmux].
Defined.

(** The adapter hands on what its connection supplies, whatever the
    connection is. *)
Lemma adapter_returns_what_connection_supplies (c : ethclient.Client)
    (address : string) :
  fst (getLatestBlockNumber {| client := c |} []) =
    match ethclient.header_response c None with
    | inl header => inl (types.Number header)
    | inr err => inr err
    end /\
  fst (getBalance {| client := c |} address []) =
    ethclient.balance_response c (common.HexToAddress address) None.
Proof. rewrite getLatestBlockNumber_eq, getBalance_eq. by split. Qed.

(** C5.  The constructor takes no connection: an adapter it returns
    wraps the connection dialled at [infuraURL], and there is none when
    dialling fails.  A substitute cannot be handed to it. *)
Theorem NewEthereumClient_wraps_dialled_connection Dial
    (ec : EthereumClient) :
  NewEthereumClient Dial = inl ec ->
  Dial infuraURL = inl (client ec).
Proof.
  unfold NewEthereumClient.
  destruct (Dial infuraURL) as [c | err]; [|discriminate].
  by intros [= <-].
Qed.

Lemma NewEthereumClient_wraps_dialled_connection_witness :
  Substitute.dial Substitute.mockClient infuraURL =
  inl (client {| client := Substitute.mockClient |}).
Proof.
  apply (NewEthereumClient_wraps_dialled_connection
           (Substitute.dial Substitute.mockClient)
           {| client := Substitute.mockClient |}).
  reflexivity.
Defined.

(** ** Requests in flight *)

(** What an operation returns does not depend on the calls made before
    it. *)
Lemma runOp_result (ec : EthereumClient) (op : Op) calls :
  fst (runOp ec op calls) = fst (runOp ec op []).
Proof.
  destruct op as [|address]; cbn [runOp].
  - by rewrite !getLatestBlockNumber_eq.
  - by rewrite !getBalance_eq.
Qed.

Lemma pool_inv_submit (ec : EthereumClient) (ops : list Op) :
  pool_inv ec ops (submit ec ops).
Proof.
  split; [reflexivity|]. split; [apply length_fmap|].
  intros i t. cbn [submit tasks]. rewrite list_lookup_fmap.
  destruct (ops !! i) as [op|]; [|discriminate].
  intros [= <-]. exists op. by split; [|left].
Qed.

Lemma pool_inv_step (ec : EthereumClient) (ops : list Op) (p p' : Pool) :
  pool_inv ec ops p -> pool_step p p' -> pool_inv ec ops p'.
Proof.
  intros (Hconn & Hlen & Htasks) Hstep.
  destruct Hstep as [ec' ts calls i op Hi].
  unfold pool_inv. cbn [conn tasks] in *. subst ec'.
  split; [reflexivity|]. split; [by rewrite length_insert|].
  intros j t.
  destruct (decide (i = j)) as [<- | Hne].
  - rewrite list_lookup_insert_eq by by eapply lookup_lt_Some.
    intros [= <-]. destruct (Htasks i _ Hi) as (op' & Hop & [Hpend | Hfin]).
    + injection Hpend as <-. exists op. split; [exact Hop|]. right.
      by rewrite runOp_result.
    + discriminate Hfin.
  - rewrite list_lookup_insert_ne by exact Hne. apply Htasks.
Qed.

Lemma pool_inv_rtc (ec : EthereumClient) (ops : list Op) (p : Pool) :
  rtc pool_step (submit ec ops) p -> pool_inv ec ops p.
Proof.
  intros Hrtc.
  apply (rtc_ind_r (R := pool_step) (pool_inv ec ops) (submit ec ops));
    [apply pool_inv_submit | | exact Hrtc].
  intros q q' _ Hstep Hinv. by eapply pool_inv_step.
Qed.

Lemma pool_results (ec : EthereumClient) (ops : list Op) (p : Pool) :
  rtc pool_step (submit ec ops) p ->
  quiescent p ->
  tasks p = (fun op => Finished (fst (runOp ec op []))) <$> ops.
Proof.
  intros Hrtc Hq. destruct (pool_inv_rtc ec ops p Hrtc) as (_ & Hlen & Htasks).
  apply list_eq. intros i. rewrite list_lookup_fmap.
  destruct (tasks p !! i) as [t|] eqn:Ht.
  - destruct (Htasks i t Ht) as (op & Hop & [-> | ->]).
    + by apply Hq in Ht.
    + by rewrite Hop.
  - apply lookup_ge_None in Ht. rewrite Hlen in Ht.
    apply lookup_ge_None in Ht. by rewrite Ht.
Qed.

(** C9.  Two operations in flight over one connection, run in whatever
    order, end with the results each has when run alone, and the
    connection is the one they started with.  The result of
    [getLatestBlockNumber] is a function of the connection's answer to
    the header query alone, and the result of [getBalance] of its answer
    to the balance query for the operation's own address. *)
Theorem concurrent_requests_independent (ec : EthereumClient)
    (address : string) (p : Pool) :
  rtc pool_step (submit ec [OpLatestBlockNumber; OpBalanceOf address]) p ->
  quiescent p ->
  tasks p = [Finished (fst (getLatestBlockNumber ec []));
             Finished (fst (getBalance ec address []))] /\
  conn p = ec /\
  (forall (ec' : EthereumClient) calls calls',
     ethclient.header_response (client ec') None =
     ethclient.header_response (client ec) None ->
     fst (getLatestBlockNumber ec' calls') =
     fst (getLatestBlockNumber ec calls)) /\
  (forall (ec' : EthereumClient) calls calls',
     ethclient.balance_response (client ec')
       (common.HexToAddress address) None =
     ethclient.balance_response (client ec)
       (common.HexToAddress address) None ->
     fst (getBalance ec' address calls') = fst (getBalance ec address calls)).
Proof.
  intros Hrtc Hq. split; [|split; [|split]].
  - by rewrite (pool_results ec _ p Hrtc Hq).
  - by destruct (pool_inv_rtc ec _ p Hrtc) as (Hconn & _).
  - intros ec' calls calls' Hsame. rewrite !getLatestBlockNumber_eq.
    cbn [fst]. by rewrite Hsame.
  - intros ec' calls calls' Hsame. rewrite !getBalance_eq.
    cbn [fst]. by rewrite Hsame.
Qed.

(** The balance operation first, the header operation second. *)
Lemma concurrent_requests_independent_witness :
  exists p,
    rtc pool_step
      (submit {| client := Substitute.mockClient |}
         [OpLatestBlockNumber; OpBalanceOf "0x0"]) p /\
    tasks p = [Finished (inl 12345); Finished (inl 1000)] /\
    upstream p = [ethclient.CallBalanceAt Substitute.zeroAddress None;
                  ethclient.CallHeaderByNumber None].
Proof.
  set (ec := {| client := Substitute.mockClient |}).
  set (p1 := {| conn := ec;
                tasks := [Pending OpLatestBlockNumber;
                          Finished (fst (runOp ec (OpBalanceOf "0x0") []))];
                upstream := snd (runOp ec (OpBalanceOf "0x0") []) |}).
  set (p2 := {| conn := ec;
                tasks := [Finished (fst (runOp ec OpLatestBlockNumber
                                           (upstream p1)));
                          Finished (fst (runOp ec (OpBalanceOf "0x0") []))];
                upstream := snd (runOp ec OpLatestBlockNumber (upstream p1)) |}).
  assert (Hrtc : rtc pool_step
                   (submit ec [OpLatestBlockNumber; OpBalanceOf "0x0"]) p2).
  { eapply rtc_l.
    - exact (pool_step_run ec
               [Pending OpLatestBlockNumber; Pending (OpBalanceOf "0x0")]
               [] 1 (OpBalanceOf "0x0") eq_refl).
    - eapply rtc_l; [|apply rtc_refl].
      exact (pool_step_run ec (tasks p1) (upstream p1) 0
               OpLatestBlockNumber eq_refl). }
  exists p2. split; [exact Hrtc|]. split; [|reflexivity].
  destruct (concurrent_requests_independent ec "0x0" p2 Hrtc) as (Htasks & _).
  - intros [|[|i]] op; discriminate.
  - exact Htasks.
Defined.

(** * Further properties of the program *)

(** ** Start-up, continued *)

(** After a successful dial [main] has registered the two handlers and
    printed its line before it tries to listen. *)
Lemma main_connected Dial Listen c :
  Dial infuraURL = inl c ->
  main Dial Listen =
  ListenAndServe Listen ":8080"
    {| DefaultServeMux :=
         <["/balance" := balanceHandler {| client := c |}]>
           (<["/latest-block" := latestBlockHandler {| client := c |}]> ∅);
       stdout := ["Server running on port 8080"];
       stderr := [];
       state := Starting |}.
Proof.
  intros Hdial. unfold main, NewEthereumClient. by rewrite Hdial.
Qed.

Lemma routes_dom (h1 h2 : http.HandlerFunc) :
  dom (<["/balance" := h1]> (<["/latest-block" := h2]>
         (∅ : gmap string http.HandlerFunc)))
  = ({[ "/latest-block"; "/balance" ]} : gset string).
Proof. rewrite !dom_insert_L, dom_empty_L. set_solver. Qed.

Lemma run_exited (p : Process) code evs p' :
  state p = Exited code -> run p evs p' -> evs = [] /\ p' = p.
Proof.
  intros Hexit Hrun. inversion Hrun as [|? ev ? ? ? Hstep]; subst.
  - by split.
  - by eapply exited_no_step in Hstep.
Qed.

(** X1.  When the connection is established but the listen address
    cannot be bound, the process exits with code 1 and the bind error
    on standard error.  By then both routes are registered and the line
    [Server running on port 8080] has been printed, yet no request is
    ever handled. *)
Theorem bind_failure_is_fatal Dial Listen c err :
  Dial infuraURL = inl c ->
  Listen ":8080" = Some err ->
  state (main Dial Listen) = Exited 1 /\
  stderr (main Dial Listen) = [Error err] /\
  stdout (main Dial Listen) = ["Server running on port 8080"] /\
  dom (DefaultServeMux (main Dial Listen))
    = ({[ "/latest-block"; "/balance" ]} : gset string) /\
  (forall evs p', run (main Dial Listen) evs p' -> evs = []).
Proof.
  intros Hdial Hlisten.
  rewrite (main_connected Dial Listen c Hdial).
  unfold ListenAndServe. rewrite Hlisten. unfold Fatal. cbn.
  split; [reflexivity|]. split; [reflexivity|]. split; [reflexivity|].
  split; [apply routes_dom|].
  intros evs p' Hrun. by eapply (run_exited _ 1) in Hrun as [-> _].
Qed.

Lemma bind_failure_is_fatal_witness :
  state (main (Substitute.dial Substitute.mockClient)
           (fun _ => Some {| Error := "address already in use" |}))
  = Exited 1 /\
  stdout (main (Substitute.dial Substitute.mockClient)
            (fun _ => Some {| Error := "address already in use" |}))
  = ["Server running on port 8080"].
Proof.
  destruct (bind_failure_is_fatal
              (Substitute.dial Substitute.mockClient)
              (fun _ => Some {| Error := "address already in use" |})
              Substitute.mockClient
              {| Error := "address already in use" |})
    as (Hstate & _ & Hout & _); [reflexivity | reflexivity |].
  split; [exact Hstate | exact Hout].
Defined.

(** X2.  The endpoint and the port are fixed: [main] consults the
    dialler at [infuraURL] only and the listener at [:8080] only.  Two
    worlds that agree there give the same process; and when both
    succeed the process serves on [:8080] with exactly the routes
    [/latest-block] and [/balance], nothing on standard error. *)
Theorem endpoint_and_port_fixed Dial Dial' Listen Listen' :
  Dial infuraURL = Dial' infuraURL ->
  Listen ":8080" = Listen' ":8080" ->
  main Dial Listen = main Dial' Listen' /\
  (forall c, Dial infuraURL = inl c -> Listen ":8080" = None ->
     state (main Dial Listen) = Serving ":8080" /\
     stderr (main Dial Listen) = [] /\
     dom (DefaultServeMux (main Dial Listen))
       = ({[ "/latest-block"; "/balance" ]} : gset string)).
Proof.
  intros Hdial Hlisten. split.
  - unfold main, NewEthereumClient, ListenAndServe.
    by rewrite Hdial, Hlisten.
  - intros c Hc Hnone. rewrite (main_connected Dial Listen c Hc).
    unfold ListenAndServe. rewrite Hnone. cbn.
    split; [reflexivity|]. split; [reflexivity|]. apply routes_dom.
Qed.

Lemma endpoint_and_port_fixed_witness :
  main (fun url => if decide (url = infuraURL)
                   then inl Substitute.mockClient
                   else inr {| Error := "unknown host" |})
       (fun addr => if decide (addr = ":8080"%string) then None
                    else Some {| Error := "permission denied" |})
  = main (Substitute.dial Substitute.mockClient) Substitute.listen.
Proof.
  destruct (endpoint_and_port_fixed
              (fun url => if decide (url = infuraURL)
                          then inl Substitute.mockClient
                          else inr {| Error := "unknown host" |})
              (Substitute.dial Substitute.mockClient)
              (fun addr => if decide (addr = ":8080"%string) then None
                           else Some {| Error := "permission denied" |})
              Substitute.listen)
    as (Hsame & _); [reflexivity | reflexivity |].
  exact Hsame.
Defined.

(** ** The routes, for any request *)

Lemma serve_latest_block_reply Dial Listen c (r : http.Request) calls :
  Dial infuraURL = inl c ->
  Listen ":8080" = None ->
  url.Path (http.URL r) = "/latest-block" ->
  http.serve (DefaultServeMux (main Dial Listen)) r calls =
    (match ethclient.header_response c None with
     | inl header =>
         encode http.newResponse
           [("latest_block", big.String (types.Number header))]
     | inr err =>
         http.Error http.newResponse (Error err)
           http.StatusInternalServerError
     end,
     calls ++ [ethclient.CallHeaderByNumber None]).
Proof.
  intros Hdial Hlisten Hpath.
  rewrite (serve_latest_block Dial Listen c Hdial Hlisten r Hpath).
  rewrite M_bind_eq, latestBlockHandler_eq. cbn [client].
  by destruct (ethclient.header_response c None).
Qed.



(** X4.  A request on either route makes at most one upstream call,
    always with no block selector, appended to the log; the reply does
    not depend on what the log held before.  The status is 200, 400 or
    500, and 400 exactly for [/balance] without an address, in which
    case nothing is called. *)
Theorem one_upstream_call_at_chain_head Dial Listen c (r : http.Request)
    calls :
  Dial infuraURL = inl c ->
  Listen ":8080" = None ->
  isRoute (url.Path (http.URL r)) ->
  exists w new,
    http.serve (DefaultServeMux (main Dial Listen)) r calls
      = (w, calls ++ new) /\
    http.serve (DefaultServeMux (main Dial Listen)) r [] = (w, new) /\
    (length new <= 1)%nat /\
    Forall (fun call => callNumber call = None) new /\
    (http.status w = 200 \/ http.status w = 400 \/ http.status w = 500) /\
    (http.status w = 400 <->
     url.Path (http.URL r) = "/balance" /\
     url.Get (url.Query (http.URL r)) "address" = EmptyString) /\
    (http.status w = 400 -> new = []).
Proof.
  intros Hdial Hlisten [Hpath | Hpath].
  - eexists _, _.
    split; [by apply serve_latest_block_reply|].
    split; [by apply serve_latest_block_reply|].
    split; [cbn; lia|]. split; [by repeat constructor|].
    destruct (ethclient.header_response c None); cbn.
    + split; [by left|]. split; [|discriminate].
      split; [discriminate|]. intros [Hp _]. rewrite Hpath in Hp.
      discriminate Hp.
    + split; [by right; right|]. split; [|discriminate].
      split; [discriminate|]. intros [Hp _]. rewrite Hpath in Hp.
      discriminate Hp.
  - destruct (decide (url.Get (url.Query (http.URL r)) "address"
                      = EmptyString)) as [Hempty | Hne].
    + exists (http.Error http.newResponse "Address is required"
                http.StatusBadRequest), [].
      rewrite app_nil_r.
      split; [by eapply serve_balance_missing|].
      split; [by eapply serve_balance_missing|].
      split; [cbn; lia|]. split; [constructor|].
      split; [by right; left|]. by split.
    + eexists _, _.
      split; [by eapply serve_balance_forwarded|].
      split; [by eapply (serve_balance_forwarded Dial Listen c _ r [])|].
      split; [cbn; lia|]. split; [by repeat constructor|].
      destruct (ethclient.balance_response c _ None); cbn.
      * split; [by left|]. split; [|discriminate].
        split; [discriminate|]. by intros [_ Hempty].
      * split; [by right; right|]. split; [|discriminate].
        split; [discriminate|]. by intros [_ Hempty].
Qed.

Lemma one_upstream_call_at_chain_head_witness :
  exists w new,
    http.serve
      (DefaultServeMux
         (main (Substitute.dial Substitute.mockClient) Substitute.listen))
      (Substitute.get "/balance" {[ "address" := ["0x0"%string] ]})
      [ethclient.CallHeaderByNumber None]
    = (w, [ethclient.CallHeaderByNumber None] ++ new) /\
    (length new <= 1)%nat.
Proof.
  destruct (one_upstream_call_at_chain_head
              (Substitute.dial Substitute.mockClient) Substitute.listen
              Substitute.mockClient
              (Substitute.get "/balance" {[ "address" := ["0x0"%string] ]})
              [ethclient.CallHeaderByNumber None])
    as (w & new & Hserve & _ & Hlen & _);
    [reflexivity | reflexivity | right; reflexivity |].
  exists w, new. split; [exact Hserve | exact Hlen].
Defined.

(** X5.  The handlers set no header on a success reply: the header map
    of a 200 reply is empty, in particular it names no JSON content
    type.  Every other reply of the two routes is marked as plain text
    that must not be sniffed. *)
Theorem reply_headers Dial Listen c (r : http.Request) calls :
  Dial infuraURL = inl c ->
  Listen ":8080" = None ->
  isRoute (url.Path (http.URL r)) ->
  exists w calls',
    http.serve (DefaultServeMux (main Dial Listen)) r calls = (w, calls') /\
    (http.status w = 200 -> http.Header w = ∅) /\
    (http.status w <> 200 ->
     http.Header w !! "Content-Type" = Some "text/plain; charset=utf-8"%string
     /\ http.Header w !! "X-Content-Type-Options" = Some "nosniff"%string).
Proof.
  intros Hdial Hlisten [Hpath | Hpath].
  - eexists _, _. split; [by apply serve_latest_block_reply|].
    destruct (ethclient.header_response c None); cbn.
    + by split.
    + split; [discriminate|]. intros _. by split.
  - destruct (decide (url.Get (url.Query (http.URL r)) "address"
                      = EmptyString)) as [Hempty | Hne].
    + eexists _, _. split; [by eapply serve_balance_missing|].
      split; [discriminate|]. intros _. by split.
    + eexists _, _. split; [by eapply serve_balance_forwarded|].
      destruct (ethclient.balance_response c _ None); cbn.
      * by split.
      * split; [discriminate|]. intros _. by split.
Qed.

Lemma reply_headers_witness :
  exists w calls',
    http.serve
      (DefaultServeMux
         (main (Substitute.dial Substitute.mockClient) Substitute.listen))
      (Substitute.get "/latest-block" ∅) [] = (w, calls') /\
    http.Header w = ∅.
Proof.
  destruct (reply_headers
              (Substitute.dial Substitute.mockClient) Substitute.listen
              Substitute.mockClient (Substitute.get "/latest-block" ∅) [])
    as (w & calls' & Hserve & Hok & _);
    [reflexivity | reflexivity | left; reflexivity |].
  exists w, calls'. split; [exact Hserve|].
  apply Hok.
  injection Hserve as <- _. reflexivity.
Defined.

(** ** Normalization of addresses, for any string *)

(** A property of all values below a bound, checked by running through
    them. *)
Lemma check_below (P : Z -> bool) (n : Z) :
  forallb P (seqZ 0 n) = true ->
  forall x, 0 <= x < n -> P x = true.
Proof.
  intros Hall x Hx. rewrite forallb_forall in Hall. apply Hall.
  apply list_elem_of_In, elem_of_seqZ. lia.
Qed.

(** Strings by pairs of bytes, the way the decoder reads them. *)
Lemma string_pair_ind (P : string -> Prop) :
  P EmptyString ->
  (forall c, P (String c EmptyString)) ->
  (forall p q rest, P rest -> P (String p (String q rest))) ->
  forall s, P s.
Proof.
  intros Hnil Hone Hpair s.
  enough (P s /\ forall c, P (String c s)) as [H _] by exact H.
  induction s as [|a s [IH1 IH2]].
  - by split.
  - split; [apply IH2|]. intros c. by apply Hpair.
Qed.

Lemma fromHexChar_range (c : ascii) (v : Z) :
  hex.fromHexChar c = Some v -> 0 <= v < 16.
Proof.
  unfold hex.fromHexChar.
  repeat case_match; intros [= <-]; lia.
Qed.

Lemma byte_of_digits (a b : Z) :
  0 <= a < 16 -> 0 <= b < 16 -> isByte (Z.lor (Z.shiftl a 4) b).
Proof.
  intros Ha Hb.
  pose proof (check_below
    (fun a => forallb
       (fun b => (0 <=? Z.lor (Z.shiftl a 4) b)
                 && (Z.lor (Z.shiftl a 4) b <? 256)) (seqZ 0 16))
    16 ltac:(vm_compute; reflexivity) a Ha) as Hcheck.
  cbv beta in Hcheck.
  pose proof (check_below _ 16 Hcheck b Hb) as H. cbv beta in H.
  apply andb_prop in H as [H1 H2]. unfold isByte. lia.
Qed.

Lemma Decode_bytes (s : string) : Forall isByte (fst (hex.Decode s)).
Proof.
  induction s as [|c|p q rest IH] using string_pair_ind.
  - constructor.
  - cbn. destruct (hex.fromHexChar c); constructor.
  - cbn. destruct (hex.fromHexChar p) as [a|] eqn:Hp; [|constructor].
    destruct (hex.fromHexChar q) as [b|] eqn:Hq; [|constructor].
    destruct (hex.Decode rest) as [dst err]. cbn in *.
    constructor; [|exact IH].
    apply byte_of_digits; by eapply fromHexChar_range.
Qed.

Lemma SetBytes_bytes (b : list Z) :
  Forall isByte b -> Forall isByte (common.SetBytes b).
Proof.
  intros Hb. unfold common.SetBytes. apply Forall_app. split.
  - apply Forall_replicate. unfold isByte. lia.
  - case_decide; [by apply Forall_drop | exact Hb].
Qed.

(** X6.  Normalization never fails and never yields anything but an
    address: for every string whatsoever [HexToAddress] returns exactly
    20 values, each a byte; so the one call that [getBalance] makes
    always carries such an address, and no block selector. *)
Theorem HexToAddress_total (s : string) :
  length (common.HexToAddress s) = 20%nat /\
  Forall isByte (common.HexToAddress s) /\
  forall (ec : EthereumClient) calls,
    exists account,
      snd (getBalance ec s calls)
        = calls ++ [ethclient.CallBalanceAt account None] /\
      length account = 20%nat /\ Forall isByte account.
Proof.
  assert (Hbytes : Forall isByte (common.HexToAddress s)).
  { unfold common.HexToAddress, common.BytesToAddress.
    apply SetBytes_bytes. unfold common.FromHex, common.Hex2Bytes,
      hex.DecodeString. apply Decode_bytes. }
  split; [apply HexToAddress_length|]. split; [exact Hbytes|].
  intros ec calls. exists (common.HexToAddress s).
  rewrite getBalance_eq. split; [reflexivity|].
  split; [apply HexToAddress_length | exact Hbytes].
Qed.

(** *** Letter case *)

Ltac each_ascii c :=
  destruct c as [[] [] [] [] [] [] [] []]; vm_compute; reflexivity.

Lemma fromHexChar_lower (c : ascii) :
  hex.fromHexChar (asciiLower c) = hex.fromHexChar c.
Proof. each_ascii c. Qed.

Lemma prefix_zero_lower (c : ascii) :
  bool_decide (asciiLower c = "0"%char) = bool_decide (c = "0"%char).
Proof. each_ascii c. Qed.

Lemma prefix_x_lower (c : ascii) :
  bool_decide (asciiLower c = "x"%char)
  || bool_decide (asciiLower c = "X"%char)
  = bool_decide (c = "x"%char) || bool_decide (c = "X"%char).
Proof. each_ascii c. Qed.

Lemma has0xPrefix_lower (s : string) :
  common.has0xPrefix (lower s) = common.has0xPrefix s.
Proof.
  destruct s as [|c0 [|c1 s]]; try reflexivity.
  cbn [lower common.has0xPrefix].
  by rewrite prefix_zero_lower, prefix_x_lower.
Qed.

Lemma length_lower (s : string) : String.length (lower s) = String.length s.
Proof. induction s as [|c s IH]; cbn; congruence. Qed.

Lemma Decode_lower (s : string) :
  fst (hex.Decode (lower s)) = fst (hex.Decode s).
Proof.
  induction s as [|c|p q rest IH] using string_pair_ind.
  - reflexivity.
  - cbn. rewrite fromHexChar_lower. by destruct (hex.fromHexChar c).
  - cbn [lower hex.Decode]. rewrite !fromHexChar_lower.
    destruct (hex.fromHexChar p); [|reflexivity].
    destruct (hex.fromHexChar q); [|reflexivity].
    destruct (hex.Decode (lower rest)), (hex.Decode rest). cbn in *.
    by rewrite IH.
Qed.

Lemma FromHex_lower (s : string) :
  common.FromHex (lower s) = common.FromHex s.
Proof.
  unfold common.FromHex. rewrite has0xPrefix_lower.
  assert (Hpad : forall t,
    common.Hex2Bytes (if Nat.odd (String.length (lower t))
                      then String "0" (lower t) else lower t)
    = common.Hex2Bytes (if Nat.odd (String.length t)
                        then String "0" t else t)).
  { intros t. rewrite length_lower.
    unfold common.Hex2Bytes, hex.DecodeString.
    destruct (Nat.odd (String.length t)); [|apply Decode_lower].
    apply (Decode_lower (String "0" t)). }
  destruct (common.has0xPrefix s); [|apply Hpad].
  destruct s as [|c0 [|c1 s]]; apply Hpad.
Qed.

(** X7.  Normalization ignores letter case, in the digits and in the
    prefix: two strings that agree up to ASCII case are the same
    address, and [getBalance] does the same with both. *)
Theorem address_case_insensitive (s t : string) :
  lower s = lower t ->
  common.HexToAddress s = common.HexToAddress t /\
  forall (ec : EthereumClient) calls,
    getBalance ec s calls = getBalance ec t calls.
Proof.
  intros Hlower.
  assert (Heq : common.HexToAddress s = common.HexToAddress t).
  { unfold common.HexToAddress.
    by rewrite <- (FromHex_lower s), <- (FromHex_lower t), Hlower. }
  split; [exact Heq|]. intros ec calls. by rewrite !getBalance_eq, Heq.
Qed.

Lemma address_case_insensitive_witness :
  common.HexToAddress "0XDEADBEEF" = common.HexToAddress "0xdeadbeef".
Proof.
  destruct (address_case_insensitive "0XDEADBEEF" "0xdeadbeef")
    as (Heq & _); [reflexivity | exact Heq].
Defined.

(** *** Padding, cropping and what the decoder keeps *)

Lemma string_length_app (s1 s2 : string) :
  String.length (s1 +:+ s2) = (String.length s1 + String.length s2)%nat.
Proof.
  induction s1 as [|a s1 IH]; first reflexivity.
  rewrite string_app_cons. cbn [String.length]. by rewrite IH.
Qed.

Lemma isHexString_app (s1 s2 : string) :
  isHexString (s1 +:+ s2) = isHexString s1 && isHexString s2.
Proof.
  induction s1 as [|a s1 IH]; first reflexivity.
  rewrite string_app_cons. cbn [isHexString].
  by rewrite IH, andb_assoc.
Qed.

Lemma isHexString_cons (c : ascii) (s : string) :
  isHexString (String c s) = true ->
  (exists v, hex.fromHexChar c = Some v) /\ isHexString s = true.
Proof.
  cbn [isHexString]. intros H. apply andb_prop in H as [Hc Hs].
  apply bool_decide_eq_true in Hc. by split.
Qed.

(** The decoder reads a well-formed front part in full and goes on
    with the rest. *)
Lemma Decode_app (q s : string) :
  isHexString q = true ->
  Nat.even (String.length q) = true ->
  fst (hex.Decode (q +:+ s)) = fst (hex.Decode q) ++ fst (hex.Decode s).
Proof.
  induction q as [|c|a b rest IH] using string_pair_ind;
    intros Hhex Heven.
  - reflexivity.
  - discriminate Heven.
  - apply isHexString_cons in Hhex as [[va Ha] Hhex].
    apply isHexString_cons in Hhex as [[vb Hb] Hhex].
    rewrite !string_app_cons. cbn [hex.Decode]. rewrite Ha, Hb.
    specialize (IH Hhex Heven).
    destruct (hex.Decode (rest +:+ s)), (hex.Decode rest). cbn in *.
    by rewrite IH.
Qed.

Lemma Decode_length (s : string) :
  isHexString s = true ->
  Nat.even (String.length s) = true ->
  String.length s = (2 * length (fst (hex.Decode s)))%nat.
Proof.
  induction s as [|c|a b rest IH] using string_pair_ind;
    intros Hhex Heven.
  - reflexivity.
  - discriminate Heven.
  - apply isHexString_cons in Hhex as [[va Ha] Hhex].
    apply isHexString_cons in Hhex as [[vb Hb] Hhex].
    cbn [hex.Decode]. rewrite Ha, Hb.
    specialize (IH Hhex Heven).
    destruct (hex.Decode rest). cbn in *. lia.
Qed.

(** Decoding stops for good at a byte that is no digit. *)
Lemma Decode_invalid (c : ascii) (rest : string) :
  hex.fromHexChar c = None -> fst (hex.Decode (String c rest)) = [].
Proof.
  intros Hc. destruct rest as [|q rest]; cbn [hex.Decode]; by rewrite Hc.
Qed.

Lemma FromHex_unprefixed (s : string) :
  common.has0xPrefix s = false ->
  common.FromHex s =
  fst (hex.Decode (if Nat.odd (String.length s) then String "0" s else s)).
Proof. intros Hno. unfold common.FromHex. by rewrite Hno. Qed.

Lemma FromHex_prefixed (t : string) :
  common.FromHex ("0x" +:+ t) =
  fst (hex.Decode (if Nat.odd (String.length t) then String "0" t else t)).
Proof. reflexivity. Qed.

Lemma SetBytes_zero_cons (b : list Z) :
  common.SetBytes (0 :: b) = common.SetBytes b.
Proof.
  unfold common.SetBytes, common.AddressLength. cbn [length].
  repeat case_decide; try lia.
  - replace (S (length b) - 20)%nat with (S (length b - 20)) by lia.
    cbn [drop]. reflexivity.
  - assert (length b = 20%nat) as Hlen by lia. rewrite Hlen.
    cbn [drop Nat.sub replicate]. rewrite length_drop. cbn [length].
    replace (20 - (length b - 0))%nat with 0%nat by lia. reflexivity.
  - rewrite length_cons.
    replace (20 - length b)%nat with (S (20 - S (length b))) by lia.
    rewrite replicate_S_end, <- app_assoc. reflexivity.
Qed.

Lemma SetBytes_app_full (x y : list Z) :
  length y = 20%nat -> common.SetBytes (x ++ y) = y.
Proof.
  intros Hy. unfold common.SetBytes, common.AddressLength.
  rewrite length_app, Hy. case_decide.
  - replace (length x + 20 - 20)%nat with (length x) by lia.
    rewrite drop_app_length, Hy. reflexivity.
  - assert (length x = 0%nat) as Hx by lia.
    apply nil_length_inv in Hx as ->. cbn [app]. rewrite Hy. reflexivity.
Qed.

(** A zero digit in front of the digits changes nothing. *)
Lemma padded_zero (t : string) :
  common.SetBytes
    (fst (hex.Decode (if Nat.odd (String.length (String "0" t))
                      then String "0" (String "0" t) else String "0" t)))
  = common.SetBytes
      (fst (hex.Decode (if Nat.odd (String.length t)
                        then String "0" t else t))).
Proof.
  cbn [String.length]. rewrite Nat.odd_succ, <- Nat.negb_odd.
  destruct (Nat.odd (String.length t)); cbn [negb]; first reflexivity.
  cbn [hex.Decode].
  change (hex.fromHexChar "0") with (Some 0).
  destruct (hex.Decode t) as [dst err]. cbn.
  apply SetBytes_zero_cons.
Qed.

(** X8.  A zero in front of the digits changes nothing, with or without
    the prefix; an odd number of digits is read as if that zero stood
    in front. *)
Theorem leading_zero_digit (s : string) :
  isHexString s = true ->
  common.HexToAddress (String "0" s) = common.HexToAddress s /\
  common.HexToAddress ("0x0" +:+ s) = common.HexToAddress ("0x" +:+ s).
Proof.
  intros Hhex. unfold common.HexToAddress, common.BytesToAddress. split.
  - rewrite (FromHex_unprefixed (String "0" s)).
    + rewrite (FromHex_unprefixed s) by by apply isHexString_no_prefix.
      apply padded_zero.
    + apply (isHexString_no_prefix (String "0" s)).
      cbn [isHexString]. by rewrite Hhex.
  - change ("0x0" +:+ s) with ("0x" +:+ String "0" s).
    rewrite !FromHex_prefixed. apply padded_zero.
Qed.

Lemma leading_zero_digit_witness :
  common.HexToAddress "0abc" = common.HexToAddress "abc".
Proof.
  destruct (leading_zero_digit "abc") as (Heq & _);
    [reflexivity | exact Heq].
Defined.

(** X9.  Of more than 40 digits only the last 40 count: whatever digits
    stand in front of a full address are dropped, so the longer string
    is the same address. *)
Theorem last_forty_digits (p s : string) :
  isHexString p = true ->
  isHexString s = true ->
  String.length s = 40%nat ->
  common.HexToAddress (p +:+ s) = common.HexToAddress s /\
  common.HexToAddress ("0x" +:+ p +:+ s) = common.HexToAddress s /\
  common.HexToAddress s = fst (hex.Decode s).
Proof.
  intros Hp Hs Hlen.
  assert (Hs_even : Nat.even (String.length s) = true) by by rewrite Hlen.
  assert (Hs_odd : Nat.odd (String.length s) = false) by by rewrite Hlen.
  assert (Hbytes : length (fst (hex.Decode s)) = 20%nat).
  { pose proof (Decode_length s Hs Hs_even). lia. }
  assert (Hright : common.HexToAddress s = fst (hex.Decode s)).
  { unfold common.HexToAddress, common.BytesToAddress.
    rewrite (FromHex_unprefixed s) by by apply isHexString_no_prefix.
    rewrite Hs_odd. by apply (SetBytes_app_full []). }
  assert (Hpadded :
    common.SetBytes
      (fst (hex.Decode (if Nat.odd (String.length (p +:+ s))
                        then String "0" (p +:+ s) else p +:+ s)))
    = fst (hex.Decode s)).
  { rewrite string_length_app, Nat.odd_add, Hs_odd, xorb_false_r.
    destruct (Nat.odd (String.length p)) eqn:Hodd.
    - rewrite <- string_app_cons, Decode_app.
      + by apply SetBytes_app_full.
      + cbn [isHexString]. by rewrite Hp.
      + cbn [String.length]. by rewrite Nat.even_succ.
    - rewrite Decode_app; [by apply SetBytes_app_full | exact Hp |].
      by rewrite <- Nat.negb_odd, Hodd. }
  split; [|split; [|exact Hright]]; rewrite Hright.
  - unfold common.HexToAddress, common.BytesToAddress.
    rewrite (FromHex_unprefixed (p +:+ s)); [exact Hpadded|].
    apply isHexString_no_prefix. by rewrite isHexString_app, Hp, Hs.
  - unfold common.HexToAddress, common.BytesToAddress.
    rewrite FromHex_prefixed. exact Hpadded.
Qed.

Lemma last_forty_digits_witness :
  common.HexToAddress
    "ffff00000000000000000000000000000000000000ab"
  = common.HexToAddress "00000000000000000000000000000000000000ab".
Proof.
  destruct (last_forty_digits "ffff"
              "00000000000000000000000000000000000000ab")
    as (Heq & _); [reflexivity | reflexivity | reflexivity | exact Heq].
Defined.

(** X10.  Normalization reads up to the first byte that is no
    hexadecimal digit and drops it and all that follows: with an even
    number of digits before it and an even length in all, the string is
    the address of those digits. *)
Theorem address_cut_at_invalid_byte (p : string) (c : ascii)
    (rest : string) :
  isHexString p = true ->
  Nat.even (String.length p) = true ->
  hex.fromHexChar c = None ->
  Nat.even (String.length (String c rest)) = true ->
  common.HexToAddress (p +:+ String c rest) = common.HexToAddress p /\
  common.HexToAddress ("0x" +:+ p +:+ String c rest)
    = common.HexToAddress p.
Proof.
  intros Hp Heven Hc Htail.
  assert (Hodd_p : Nat.odd (String.length p) = false)
    by by rewrite <- Nat.negb_even, Heven.
  assert (Hodd : Nat.odd (String.length (p +:+ String c rest)) = false).
  { rewrite string_length_app, Nat.odd_add, Hodd_p.
    by rewrite <- Nat.negb_even, Htail. }
  assert (Hcut : fst (hex.Decode (p +:+ String c rest)) = fst (hex.Decode p)).
  { rewrite Decode_app by assumption.
    by rewrite Decode_invalid, app_nil_r. }
  assert (Hright : common.FromHex p = fst (hex.Decode p)).
  { rewrite FromHex_unprefixed by by apply isHexString_no_prefix.
    by rewrite Hodd_p. }
  unfold common.HexToAddress, common.BytesToAddress. rewrite Hright. split.
  - rewrite FromHex_unprefixed; [by rewrite Hodd, Hcut|].
    destruct p as [|a [|b p]]; [|discriminate Heven|].
    + rewrite string_app_nil. destruct rest as [|c1 rest]; [reflexivity|].
      cbn [common.has0xPrefix].
      destruct (decide (c = "0"%char)) as [-> | Hne];
        [discriminate Hc|].
      by rewrite bool_decide_eq_false_2.
    + apply isHexString_no_prefix in Hp. exact Hp.
  - rewrite FromHex_prefixed. by rewrite Hodd, Hcut.
Qed.

Lemma address_cut_at_invalid_byte_witness :
  common.HexToAddress "12zz34" = common.HexToAddress "12".
Proof.
  destruct (address_cut_at_invalid_byte "12" "z" "z34") as (Heq & _);
    [reflexivity | reflexivity | reflexivity | reflexivity | exact Heq].
Defined.

(** X11.  A string that begins with a byte that is no hexadecimal digit
    is the zero address, whatever follows; [getBalance] asks for the
    balance of the zero address then. *)
Theorem address_not_hex_is_zero (c : ascii) (rest : string) :
  hex.fromHexChar c = None ->
  common.HexToAddress (String c rest) = replicate 20 0 /\
  forall (ec : EthereumClient) calls,
    getBalance ec (String c rest) calls =
    (ethclient.balance_response (client ec) (replicate 20 0) None,
     calls ++ [ethclient.CallBalanceAt (replicate 20 0) None]).
Proof.
  intros Hc.
  assert (Hzero : common.HexToAddress (String c rest) = replicate 20 0).
  { unfold common.HexToAddress, common.BytesToAddress.
    rewrite FromHex_unprefixed.
    - destruct (Nat.odd (String.length (String c rest))).
      + cbn [hex.Decode]. change (hex.fromHexChar "0") with (Some 0).
        by rewrite Hc.
      + by rewrite Decode_invalid.
    - destruct rest as [|c1 rest]; [reflexivity|].
      cbn [common.has0xPrefix].
      destruct (decide (c = "0"%char)) as [-> | Hne];
        [discriminate Hc|].
      by rewrite bool_decide_eq_false_2. }
  split; [exact Hzero|]. intros ec calls. by rewrite getBalance_eq, Hzero.
Qed.

Lemma address_not_hex_is_zero_witness :
  common.HexToAddress "vitalik.eth" = replicate 20 0.
Proof.
  destruct (address_not_hex_is_zero "v" "italik.eth") as (Heq & _);
    [reflexivity | exact Heq].
Defined.

(** *** Writing an address out and reading it back *)

Lemma hextable_digit (n : Z) (capital : bool) :
  0 <= n < 16 ->
  hex.fromHexChar
    (if (57 <? Z.of_N (N_of_ascii (hextable n))) && capital
     then ascii_of_N (Z.to_N (Z.of_N (N_of_ascii (hextable n)) - 32))
     else hextable n) = Some n.
Proof.
  intros Hn.
  pose proof (check_below
    (fun n => forallb
       (fun capital : bool =>
          match hex.fromHexChar
                  (if (57 <? Z.of_N (N_of_ascii (hextable n))) && capital
                   then ascii_of_N
                          (Z.to_N (Z.of_N (N_of_ascii (hextable n)) - 32))
                   else hextable n) with
          | Some m => m =? n
          | None => false
          end) [true; false])
    16 ltac:(vm_compute; reflexivity) n Hn) as Hcheck.
  cbv beta in Hcheck. cbn [forallb] in Hcheck.
  apply andb_prop in Hcheck as [Ht Hf].
  apply andb_prop in Hf as [Hf _].
  destruct capital.
  - clear Hf. destruct (hex.fromHexChar _) as [m|]; [|discriminate Ht].
    f_equal. lia.
  - clear Ht. destruct (hex.fromHexChar _) as [m|]; [|discriminate Hf].
    f_equal. lia.
Qed.

Lemma byte_halves (v : Z) :
  isByte v ->
  0 <= Z.shiftr v 4 < 16 /\ 0 <= Z.land v 15 < 16 /\
  Z.lor (Z.shiftl (Z.shiftr v 4) 4) (Z.land v 15) = v.
Proof.
  intros Hv.
  pose proof (check_below
    (fun v => (0 <=? Z.shiftr v 4) && (Z.shiftr v 4 <? 16)
              && (0 <=? Z.land v 15) && (Z.land v 15 <? 16)
              && (Z.lor (Z.shiftl (Z.shiftr v 4) 4) (Z.land v 15) =? v))
    256 ltac:(vm_compute; reflexivity) v Hv) as Hcheck.
  cbv beta in Hcheck.
  repeat (apply andb_prop in Hcheck as [Hcheck ?]). lia.
Qed.

Lemma length_checksumCase (hash : list Z) (k : nat) (buf : string) :
  String.length (checksumCase hash k buf) = String.length buf.
Proof.
  revert k. induction buf as [|ch buf IH]; intros k; first reflexivity.
  cbn [checksumCase String.length]. by rewrite IH.
Qed.

Lemma length_EncodeToString (src : list Z) :
  String.length (EncodeToString src) = (2 * length src)%nat.
Proof.
  induction src as [|v src IH]; first reflexivity.
  cbn [EncodeToString String.length length]. rewrite IH. lia.
Qed.

(** Whatever the hash, the digits with their checksum casing decode to
    the bytes they were written from. *)
Lemma Decode_checksumCase (hash : list Z) (src : list Z) (k : nat) :
  Forall isByte src ->
  fst (hex.Decode (checksumCase hash k (EncodeToString src))) = src.
Proof.
  intros Hsrc. revert k.
  induction Hsrc as [|v src Hv Hsrc IH]; intros k; first reflexivity.
  destruct (byte_halves v Hv) as (Hhi & Hlo & Hjoin).
  cbn [EncodeToString checksumCase hex.Decode]. cbv zeta.
  rewrite (hextable_digit _ _ Hhi), (hextable_digit _ _ Hlo).
  specialize (IH (S (S k))).
  destruct (hex.Decode (checksumCase hash (S (S k)) (EncodeToString src))).
  cbn in *. by rewrite IH, Hjoin.
Qed.

(** X12.  [HexToAddress] reads back what [Address.Hex] writes, whatever
    the checksum casing: for every address [a] of 20 bytes,
    [HexToAddress (a.Hex())] is [a], so [getBalance (a.Hex())] asks the
    connection for the balance of [a] and returns its answer. *)
Theorem Hex_round_trip (Keccak256 : string -> list Z)
    (a : common.Address) :
  length a = 20%nat ->
  Forall isByte a ->
  common.HexToAddress (Hex Keccak256 a) = a /\
  forall (ec : EthereumClient) calls,
    getBalance ec (Hex Keccak256 a) calls =
    (ethclient.balance_response (client ec) a None,
     calls ++ [ethclient.CallBalanceAt a None]).
Proof.
  intros Hlen Hbytes.
  assert (Hback : common.HexToAddress (Hex Keccak256 a) = a).
  { unfold common.HexToAddress, common.BytesToAddress, Hex. cbv zeta.
    rewrite FromHex_prefixed.
    rewrite length_checksumCase, length_EncodeToString, Hlen.
    cbn [Nat.odd Nat.mul Nat.add Nat.even negb].
    rewrite Decode_checksumCase by exact Hbytes.
    by apply (SetBytes_app_full []). }
  split; [exact Hback|]. intros ec calls. by rewrite getBalance_eq, Hback.
Qed.

Lemma Hex_round_trip_witness :
  common.HexToAddress
    (Hex (fun _ => replicate 32 200) (replicate 18 0 ++ [171; 205]))
  = replicate 18 0 ++ [171; 205].
Proof.
  destruct (Hex_round_trip (fun _ => replicate 32 200)
              (replicate 18 0 ++ [171; 205])) as (Hback & _);
    [reflexivity | | exact Hback].
  repeat constructor; discriminate.
Defined.

(** *** The address as a number *)

Lemma digits_join (a b : Z) :
  0 <= a < 16 -> 0 <= b < 16 -> Z.lor (Z.shiftl a 4) b = 16 * a + b.
Proof.
  intros Ha Hb.
  pose proof (check_below
    (fun a => forallb
       (fun b => Z.lor (Z.shiftl a 4) b =? 16 * a + b) (seqZ 0 16))
    16 ltac:(vm_compute; reflexivity) a Ha) as Hcheck.
  cbv beta in Hcheck.
  pose proof (check_below _ 16 Hcheck b Hb) as H. cbv beta in H. lia.
Qed.

Lemma bigEndianFrom_app (acc : Z) (x y : list Z) :
  bigEndianFrom acc (x ++ y) = bigEndianFrom (bigEndianFrom acc x) y.
Proof.
  revert acc. induction x as [|b x IH]; intros acc; first reflexivity.
  cbn [app bigEndianFrom]. apply IH.
Qed.

Lemma bigEndianFrom_shift (acc : Z) (y : list Z) :
  bigEndianFrom acc y = acc * 256 ^ Z.of_nat (length y) + bigEndian y.
Proof.
  unfold bigEndian. revert acc.
  induction y as [|b y IH]; intros acc.
  - cbn. lia.
  - cbn [bigEndianFrom length]. rewrite (IH (256 * acc + b)), (IH (256 * 0 + b)).
    rewrite Nat2Z.inj_succ, Z.pow_succ_r by lia. lia.
Qed.

Lemma bigEndian_bound (y : list Z) :
  Forall isByte y -> 0 <= bigEndian y < 256 ^ Z.of_nat (length y).
Proof.
  induction 1 as [|b y Hb Hy IH].
  - cbn. lia.
  - unfold bigEndian in *. cbn [bigEndianFrom length].
    rewrite bigEndianFrom_shift. fold (bigEndian y) in IH.
    rewrite Nat2Z.inj_succ, Z.pow_succ_r by lia.
    unfold isByte in Hb. nia.
Qed.

Lemma bigEndian_replicate_zero (n : nat) (y : list Z) :
  bigEndian (replicate n 0 ++ y) = bigEndian y.
Proof.
  unfold bigEndian. rewrite bigEndianFrom_app.
  replace (bigEndianFrom 0 (replicate n 0)) with 0; first reflexivity.
  induction n as [|n IH]; first reflexivity.
  cbn [replicate bigEndianFrom]. exact IH.
Qed.

(** Cropping to 20 bytes is reduction modulo 2^160. *)
Lemma bigEndian_SetBytes (b : list Z) :
  Forall isByte b ->
  bigEndian (common.SetBytes b) = bigEndian b mod 2 ^ 160.
Proof.
  intros Hb. unfold common.SetBytes, common.AddressLength.
  rewrite bigEndian_replicate_zero. case_decide as Hlong.
  - rewrite <- (take_drop (length b - 20) b) at 3.
    unfold bigEndian at 2. rewrite bigEndianFrom_app, bigEndianFrom_shift.
    assert (Hlen : length (drop (length b - 20) b) = 20%nat)
      by (rewrite length_drop; lia).
    pose proof (bigEndian_bound (drop (length b - 20) b)
                  (Forall_drop _ _ _ Hb)) as Hbound.
    rewrite Hlen in Hbound |- *.
    change (256 ^ Z.of_nat 20) with (2 ^ 160) in *.
    rewrite Z.add_comm, Z.mod_add by lia.
    symmetry. by apply Z.mod_small.
  - pose proof (bigEndian_bound b Hb) as Hbound.
    symmetry. apply Z.mod_small. split; [lia|].
    eapply Z.lt_le_trans; [apply Hbound|].
    change (2 ^ 160) with (256 ^ Z.of_nat 20).
    apply Z.pow_le_mono_r; lia.
Qed.

Lemma Decode_value (q : string) (acc : Z) :
  isHexString q = true ->
  Nat.even (String.length q) = true ->
  bigEndianFrom acc (fst (hex.Decode q)) = hexValueFrom acc q.
Proof.
  revert acc.
  induction q as [|c|a b rest IH] using string_pair_ind;
    intros acc Hhex Heven.
  - reflexivity.
  - discriminate Heven.
  - apply isHexString_cons in Hhex as [[va Ha] Hhex].
    apply isHexString_cons in Hhex as [[vb Hb] Hhex].
    cbn [hex.Decode hexValueFrom]. rewrite Ha, Hb. cbn [default from_option].
    specialize (IH (256 * acc + (16 * va + vb)) Hhex Heven).
    destruct (hex.Decode rest) as [dst err]. cbn [fst] in *.
    cbn [bigEndianFrom].
    rewrite digits_join by by eapply fromHexChar_range.
    rewrite IH. f_equal. unfold id. lia.
Qed.

(** X13.  For a string of hexadecimal digits, with or without the
    prefix, the address is the number the digits write, reduced modulo
    2^160 and laid out big-endian in 20 bytes: shorter numbers are
    padded with zero bytes in front, longer ones lose what exceeds 160
    bits. *)
Theorem address_is_number_mod_2_160 (s : string) :
  isHexString s = true ->
  bigEndian (common.HexToAddress s) = hexValue s mod 2 ^ 160 /\
  bigEndian (common.HexToAddress ("0x" +:+ s)) = hexValue s mod 2 ^ 160.
Proof.
  intros Hhex.
  assert (Hpadded :
    bigEndian
      (common.SetBytes
         (fst (hex.Decode (if Nat.odd (String.length s)
                           then String "0" s else s))))
    = hexValue s mod 2 ^ 160).
  { rewrite bigEndian_SetBytes by apply Decode_bytes. f_equal.
    unfold bigEndian, hexValue.
    destruct (Nat.odd (String.length s)) eqn:Hodd.
    - rewrite Decode_value.
      + reflexivity.
      + cbn [isHexString]. by rewrite Hhex.
      + cbn [String.length]. by rewrite Nat.even_succ.
    - rewrite Decode_value; [reflexivity | exact Hhex |].
      by rewrite <- Nat.negb_odd, Hodd. }
  unfold common.HexToAddress, common.BytesToAddress. split.
  - by rewrite FromHex_unprefixed by by apply isHexString_no_prefix.
  - by rewrite FromHex_prefixed.
Qed.

Lemma address_is_number_mod_2_160_witness :
  bigEndian (common.HexToAddress "1ff") = 511.
Proof.
  destruct (address_is_number_mod_2_160 "1ff") as (Hvalue & _);
    [reflexivity | exact Hvalue].
Defined.
